(** * Shallow embedding of the YTD analysis core of stock-performance-analyzer

    Sources embedded:
    - [src/utils/ytd_analysis.py]: [calculate_ytd_returns],
      [prepare_ytd_series], [calculate_historical_average],
      [get_summary_statistics];
    - [src/utils/multi_ticker_analysis.py]: [determine_comparison_years],
      [get_ytd_for_comparison], [prepare_comparison_data],
      [calculate_comparison_statistics], the column headers of
      [format_comparison_table];
    - [src/pages/1_📊_Ticker_Comparison.py]: the selection of
      [compare_year]/[baseline_year], the sidebar years, the per-ticker
      loading loop and the call of [format_comparison_table];
    - the library code that [sort_values('Current Return',
      ascending=False, na_position='last')] runs: pandas' [nargsort] and
      numpy's portable [aquicksort_]/[aheapsort_] (npysort/quicksort.cpp,
      npysort/heapsort.cpp).

    Modelling choices:
    - a pandas DataFrame is a list of rows in row order; a [pd.Series]
      indexed by month is an association list [(month, value)] in row order;
      a Python dict is an association list in insertion order (its keys are
      distinct, as in Python);
    - prices and returns are rationals [Q]; [np.nan] is [None] of an
      [option Q];
    - [datetime.now()] is an explicit argument [(today_year, today_month)];
    - a Python exception is the [Raise] constructor of [py_result];
    - numpy's index buffer is a [list Z] addressed by position, the C
      pointers being positions; loops are bounded by a count that the C
      code's own bounds never let run out. *)

From Stdlib Require Import ZArith QArith List String Bool Lia Permutation Sorted.
From Stdlib Require DecimalZ.
Import ListNotations.

Open Scope Z_scope.

(** ** Python results *)

Inductive py_exc : Type :=
| InvalidIndexError   (* pandas: reindexing on a non-unique index *)
| ValueError          (* max()/min() of an empty sequence; truth value of a Series *)
| KeyError.           (* pandas: a column label that is not in the frame *)

Inductive py_result (A : Type) : Type :=
| Ok : A -> py_result A
| Raise : py_exc -> py_result A.
Arguments Ok {A} _.
Arguments Raise {A} _.

(** ** Association lists (pandas index lookups, dict lookups) *)

Fixpoint assoc {V : Type} (k : Z) (l : list (Z * V)) : option V :=
  match l with
  | [] => None
  | (k', v) :: t => if Z.eqb k k' then Some v else assoc k t
  end.

Fixpoint has_dup (l : list Z) : bool :=
  match l with
  | [] => false
  | x :: t => existsb (Z.eqb x) t || has_dup t
  end.

(** ** Data model *)

(** A monthly price bar after [df["Year"] = df["Date"].dt.year] and
    [df["Month"] = df["Date"].dt.month]. *)
Record bar : Type := mkBar { b_year : Z; b_month : Z; b_close : Q }.

(** A row of the DataFrame returned by [calculate_ytd_returns]:
    columns Year, Month, Close, YTD. *)
Record ytd_row : Type := mkRow { r_year : Z; r_month : Z; r_close : Q; r_ytd : Q }.

(** ** [calculate_ytd_returns] (ytd_analysis.py, lines 10-59) *)

(** Line 40: [df[df["Year"].between(start_year, end_year)]]. *)
Definition in_range (start_year end_year : Z) (b : bar) : bool :=
  (start_year <=? b_year b) && (b_year b <=? end_year).

(** Lines 40-46: the bars kept before the baseline lookup. *)
Definition processed_bars (today_year today_month start_year end_year : Z)
    (df : list bar) : list bar :=
  let df := filter (in_range start_year end_year) df in
  if Z.eqb end_year today_year then
    filter (fun b => negb (Z.eqb (b_year b) end_year && (today_month <=? b_month b))) df
  else df.

(** Lines 49-51: December closes, re-keyed by [Year + 1]. *)
Definition dec_baseline (df : list bar) : list (Z * Q) :=
  map (fun b => (b_year b + 1, b_close b)) (filter (fun b => Z.eqb (b_month b) 12) df).

(** Lines 54-57: [df["Close"] / df["Year"].map(dec_baseline) - 1], then
    [dropna]. [Series.map] with a Series whose index has duplicates raises
    [InvalidIndexError]. *)
Definition ytd_of (dec : list (Z * Q)) (b : bar) : option ytd_row :=
  match assoc (b_year b) dec with
  | Some c => Some (mkRow (b_year b) (b_month b) (b_close b) (b_close b / c - 1)%Q)
  | None => None
  end.

Definition calculate_ytd_returns (today_year today_month : Z)
    (df : list bar) (start_year end_year : Z) : py_result (list ytd_row) :=
  let df := processed_bars today_year today_month start_year end_year df in
  let dec := dec_baseline df in
  if has_dup (map fst dec) then Raise InvalidIndexError
  else Ok (flat_map (fun b => match ytd_of dec b with
                              | Some r => [r] | None => [] end) df).

(** The per-ticker loading step of the comparison page (lines 189-205):
    [None] when the ticker goes to [failed_tickers]. *)
Definition load_ticker_step (today_year today_month : Z) (data : list bar)
    (start_year compare_year : Z) : py_result (option (list ytd_row)) :=
  match data with
  | [] => Ok None
  | _ =>
    match calculate_ytd_returns today_year today_month data start_year compare_year with
    | Raise e => Raise e
    | Ok [] => Ok None
    | Ok ytd => Ok (Some ytd)
    end
  end.

(** ** Calendar window: [determine_comparison_years]
    (multi_ticker_analysis.py, lines 10-29) and the page's selection of
    [compare_year]/[baseline_year] (Ticker_Comparison page, lines 52-60) *)

(** Returns [(current_year, prior_year, last_completed_month, is_january)]. *)
Definition determine_comparison_years (today_year today_month : Z) : Z * Z * Z * bool :=
  if Z.eqb today_month 1 then (today_year, today_year - 1, 12, true)
  else (today_year, today_year - 1, today_month - 1, false).

Record window : Type := mkWindow {
  display_year : Z;
  comparison_year : Z;
  last_completed_month : Z;
  is_january_mode : bool;
  baseline_year : Z }.

Definition calendar_window (today_year today_month : Z) : window :=
  let '(current_year, prior_year, last_month, is_january) :=
    determine_comparison_years today_year today_month in
  let '(compare_year, baseline_year) :=
    if is_january then (prior_year, prior_year - 1) else (current_year, prior_year) in
  mkWindow current_year compare_year last_month is_january baseline_year.

(** ** Multi-ticker comparison (multi_ticker_analysis.py, lines 32-165) *)

(** A [pd.Series] of YTD values indexed by month. *)
Definition series : Type := list (Z * Q).

(** [get_ytd_for_comparison] (lines 32-65). *)
Definition get_ytd_for_comparison (df : list ytd_row) (year last_month : Z) : option series :=
  let year_data := filter (fun r => Z.eqb (r_year r) year) df in
  match year_data with
  | [] => None
  | _ =>
    let s := map (fun r => (r_month r, r_ytd r)) year_data in
    let s := filter (fun p => fst p <=? last_month) s in
    match s with [] => None | _ => Some s end
  end.

Definition is_some {A : Type} (o : option A) : bool :=
  match o with Some _ => true | None => false end.

(** [prepare_comparison_data] (lines 68-106): the ticker's entry is
    [(current, prior)]. *)
Definition prepare_comparison_data (all_ytd_data : list (string * list ytd_row))
    (current_year prior_year last_month : Z)
    : list (string * (option series * option series)) :=
  flat_map (fun '(ticker, df) =>
      let current_series := get_ytd_for_comparison df current_year last_month in
      let prior_series := get_ytd_for_comparison df prior_year last_month in
      if is_some current_series || is_some prior_series
      then [(ticker, (current_series, prior_series))] else [])
    all_ytd_data.

Record comparison_row : Type := mkCRow {
  c_ticker : string;
  current_return : option Q;
  prior_return : option Q;
  difference : option Q }.

(** [s.iloc[-1] if s is not None and len(s) > 0 else np.nan]. *)
Definition iloc_last (s : option series) : option Q :=
  match s with
  | Some s => match rev s with (_, v) :: _ => Some v | [] => None end
  | None => None
  end.

(** Lines 139-158: one row per entry, in the dict's order. *)
Definition comparison_rows (comparison_data : list (string * (option series * option series)))
    : list comparison_row :=
  map (fun '(ticker, (cs, ps)) =>
         let current_return := iloc_last cs in
         let prior_return := iloc_last ps in
         let difference :=
           match current_return, prior_return with
           | Some c, Some p => Some (c - p)%Q
           | _, _ => None
           end in
         mkCRow ticker current_return prior_return difference)
    comparison_data.

Definition has_current (r : comparison_row) : bool := is_some (current_return r).

Definition desc_current (a b : comparison_row) : Prop :=
  match current_return a, current_return b with
  | Some x, Some y => (y <= x)%Q
  | _, _ => True
  end.

(** Line 161: [df.sort_values('Current Return', ascending=False,
    na_position='last')]. The orders a descending sort with the NaN rows
    last can give: the non-NaN rows in some order of non-increasing value,
    then the NaN rows in their original order. numpy documents
    [argsort(kind='quicksort')] as not stable; the one order it gives is
    [calculate_comparison_statistics_np] below. What is proved with this
    relation holds for every order in it. *)
Definition sort_values_current_desc (rows out : list comparison_row) : Prop :=
  exists non_nan,
    Permutation non_nan (filter has_current rows) /\
    Sorted desc_current non_nan /\
    out = non_nan ++ filter (fun r => negb (has_current r)) rows.

(** [calculate_comparison_statistics] (lines 137-165): the tables it can
    return. With no ticker, [pd.DataFrame([])] has no column
    ['Current Return'] and [sort_values] raises [KeyError]: no table. *)
Definition calculate_comparison_statistics
    (comparison_data : list (string * (option series * option series)))
    (out : list comparison_row) : Prop :=
  comparison_data <> [] /\
  sort_values_current_desc (comparison_rows comparison_data) out.

(** The reading of the spec (sec. 4.4 (c)): a stable sort by
    [current_return] descending with the null rows last. *)
Fixpoint insert_desc_stable (x : comparison_row) (l : list comparison_row)
    : list comparison_row :=
  match l with
  | [] => [x]
  | y :: t =>
    match current_return x, current_return y with
    | Some a, Some b => if Qle_bool b a then x :: l else y :: insert_desc_stable x t
    | _, _ => x :: l
    end
  end.

Definition spec_stable_sort_desc (rows : list comparison_row) : list comparison_row :=
  fold_right insert_desc_stable [] (filter has_current rows)
  ++ filter (fun r => negb (has_current r)) rows.

(** ** [DataFrame.sort_values] as pandas and numpy run it (line 161) *)

(** pandas orders the frame by [nargsort(items, kind='quicksort',
    ascending=False, na_position='last')] and numpy sorts the non-NaN
    values with [aquicksort_] of npysort/quicksort.cpp, the portable
    quicksort used when no SIMD sort is dispatched. *)

(** numpy's [Tag::less] for doubles is [a < b || (b != b && a == a)]; the
    values sorted here are never NaN, so it is [a < b]. *)
Definition np_less (a b : Q) : bool := negb (Qle_bool b a).

(** The index buffer [tosort] of [aquicksort_]; the C pointers [pl], [pr],
    [pi], [pj], [pk], [pm] are positions in it. *)
Definition buf : Type := list Z.

Definition buf_get (a : buf) (i : Z) : Z := nth (Z.to_nat i) a 0.

Fixpoint set_nth {A : Type} (l : list A) (n : nat) (x : A) : list A :=
  match l, n with
  | [], _ => []
  | _ :: t, O => x :: t
  | y :: t, S n => y :: set_nth t n x
  end.

Definition buf_set (a : buf) (i x : Z) : buf := set_nth a (Z.to_nat i) x.

(** [INTP_SWAP( *p, *q)]: [tmp = *q; *q = *p; *p = tmp]. *)
Definition buf_swap (a : buf) (p q : Z) : buf :=
  let tmp := buf_get a q in buf_set (buf_set a q (buf_get a p)) p tmp.

(** [v[k]]. *)
Definition val (v : list Q) (k : Z) : Q := nth (Z.to_nat k) v 0%Q.

(** [while (pj > pl && Tag::less(vp, v[*pk])) { *pj-- = *pk--; }] with
    [pk = pj - 1]; the loop runs at most [pj - pl] times. *)
Fixpoint insertion_shift (v : list Q) (vp : Q) (a : buf) (pl pj : Z) (steps : nat) : buf * Z :=
  match steps with
  | O => (a, pj)
  | S steps =>
    if (pl <? pj) && np_less vp (val v (buf_get a (pj - 1)))
    then insertion_shift v vp (buf_set a pj (buf_get a (pj - 1))) pl (pj - 1) steps
    else (a, pj)
  end.

(** [for (pi = pl + 1; pi <= pr; ++pi) { vi = *pi; vp = v[vi]; pj = pi;
    pk = pi - 1; while (...) ...; *pj = vi; }] *)
Fixpoint insertion_loop (v : list Q) (a : buf) (pl pi : Z) (count : nat) : buf :=
  match count with
  | O => a
  | S count =>
    let vi := buf_get a pi in
    let '(a, pj) := insertion_shift v (val v vi) a pl pi (Z.to_nat (pi - pl)) in
    insertion_loop v (buf_set a pj vi) pl (pi + 1) count
  end.

Definition insertion_sort (v : list Q) (a : buf) (pl pr : Z) : buf :=
  insertion_loop v a pl (pl + 1) (Z.to_nat (pr - pl)).

(** [do ++pi; while (Tag::less(v[*pi], vp));]: the pivot stored at
    [pr - 1] stops the scan inside the segment, so [steps] (the segment's
    length) is never exhausted. *)
Fixpoint scan_up (v : list Q) (vp : Q) (a : buf) (pi : Z) (steps : nat) : Z :=
  match steps with
  | O => pi + 1
  | S steps =>
    if np_less (val v (buf_get a (pi + 1))) vp then scan_up v vp a (pi + 1) steps else pi + 1
  end.

(** [do --pj; while (Tag::less(vp, v[*pj]));]: stopped by the median
    element at [pl]. *)
Fixpoint scan_down (v : list Q) (vp : Q) (a : buf) (pj : Z) (steps : nat) : Z :=
  match steps with
  | O => pj - 1
  | S steps =>
    if np_less vp (val v (buf_get a (pj - 1))) then scan_down v vp a (pj - 1) steps else pj - 1
  end.

(** [for (;;) { do ++pi ...; do --pj ...; if (pi >= pj) break;
    INTP_SWAP( *pi, *pj); }]; each round moves [pi] up, so [fuel] (the
    segment's length) is never exhausted. *)
Fixpoint partition_loop (v : list Q) (vp : Q) (a : buf) (pi pj : Z) (steps fuel : nat)
    : buf * Z :=
  match fuel with
  | O => (a, pi)
  | S fuel =>
    let pi := scan_up v vp a pi steps in
    let pj := scan_down v vp a pj steps in
    if pj <=? pi then (a, pi) else partition_loop v vp (buf_swap a pi pj) pi pj steps fuel
  end.

(** The sift-down loop of [aheapsort_], on [a = tosort - 1] (position
    [base + k] holds [a[k]], [base = pl - 1]):
    [for (i = l, j = l << 1; j <= n;) { if (j < n && less(v[a[j]], v[a[j+1]]))
    j += 1; if (less(v[tmp], v[a[j]])) { a[i] = a[j]; i = j; j += j; } else
    break; } a[i] = tmp;]; [j] doubles, so [fuel = n] is never exhausted. *)
Fixpoint heap_sift (v : list Q) (a : buf) (base n tmp i j : Z) (fuel : nat) : buf :=
  match fuel with
  | O => buf_set a (base + i) tmp
  | S fuel =>
    if j <=? n then
      let j := if (j <? n) && np_less (val v (buf_get a (base + j)))
                                      (val v (buf_get a (base + j + 1)))
               then j + 1 else j in
      if np_less (val v tmp) (val v (buf_get a (base + j)))
      then heap_sift v (buf_set a (base + i) (buf_get a (base + j))) base n tmp j (j + j) fuel
      else buf_set a (base + i) tmp
    else buf_set a (base + i) tmp
  end.

(** [for (l = n >> 1; l > 0; --l) { tmp = a[l]; sift }] *)
Fixpoint heap_build (v : list Q) (a : buf) (base n l : Z) (count : nat) : buf :=
  match count with
  | O => a
  | S count =>
    heap_build v (heap_sift v a base n (buf_get a (base + l)) l (l + l) (Z.to_nat n))
      base n (l - 1) count
  end.

(** [for (; n > 1;) { tmp = a[n]; a[n] = a[1]; n -= 1; sift from i = 1,
    j = 2 }] *)
Fixpoint heap_extract (v : list Q) (a : buf) (base n : Z) (count : nat) : buf :=
  match count with
  | O => a
  | S count =>
    if 1 <? n then
      let tmp := buf_get a (base + n) in
      let a := buf_set a (base + n) (buf_get a (base + 1)) in
      let n := n - 1 in
      heap_extract v (heap_sift v a base n tmp 1 2 (Z.to_nat n)) base n count
    else a
  end.

(** [aheapsort_(vv, pl, n)]. *)
Definition aheapsort (v : list Q) (a : buf) (pl n : Z) : buf :=
  let base := pl - 1 in
  heap_extract v (heap_build v a base n (Z.shiftr n 1) (Z.to_nat (Z.shiftr n 1)))
    base n (Z.to_nat n).

(** [while ((pr - pl) > SMALL_QUICKSORT) { ... }] with
    [SMALL_QUICKSORT = 16]: median of three, partition, push the larger
    part as [(pl, pr)] on [stack] and [--cdepth] on [depths]. Each round
    shrinks [pr - pl], so [fuel] (the segment's length) is never
    exhausted. *)
Fixpoint partition_phase (v : list Q) (a : buf) (pl pr : Z) (stack : list (Z * Z))
    (depths : list Z) (cdepth : Z) (fuel : nat)
    : buf * Z * Z * list (Z * Z) * list Z * Z :=
  match fuel with
  | O => (a, pl, pr, stack, depths, cdepth)
  | S fuel =>
    if 16 <? pr - pl then
      let pm := pl + Z.shiftr (pr - pl) 1 in
      let a := if np_less (val v (buf_get a pm)) (val v (buf_get a pl)) then buf_swap a pm pl else a in
      let a := if np_less (val v (buf_get a pr)) (val v (buf_get a pm)) then buf_swap a pr pm else a in
      let a := if np_less (val v (buf_get a pm)) (val v (buf_get a pl)) then buf_swap a pm pl else a in
      let vp := val v (buf_get a pm) in
      let a := buf_swap a pm (pr - 1) in
      let '(a, pi) := partition_loop v vp a pl (pr - 1) (Z.to_nat (pr - pl)) (Z.to_nat (pr - pl)) in
      let a := buf_swap a pi (pr - 1) in
      let cdepth := cdepth - 1 in
      if pi - pl <? pr - pi
      then partition_phase v a pl (pi - 1) ((pi + 1, pr) :: stack) (cdepth :: depths) cdepth fuel
      else partition_phase v a (pi + 1) pr ((pl, pi - 1) :: stack) (cdepth :: depths) cdepth fuel
    else (a, pl, pr, stack, depths, cdepth)
  end.

(** The [for (;;)] loop of [aquicksort_]: heapsort the segment when
    [cdepth < 0], else partition it and insertion-sort the small part; then
    pop the next segment ([stack_pop]). Each round but the last pops a
    segment pushed by a partition, so [fuel] ([2 num + 1]) is never
    exhausted. *)
Fixpoint aquicksort_loop (v : list Q) (a : buf) (pl pr : Z) (stack : list (Z * Z))
    (depths : list Z) (cdepth : Z) (fuel : nat) : buf :=
  match fuel with
  | O => a
  | S fuel =>
    let '(a, stack, depths) :=
      if cdepth <? 0 then (aheapsort v a pl (pr - pl + 1), stack, depths)
      else
        let '(a, pl, pr, stack, depths, _) :=
          partition_phase v a pl pr stack depths cdepth (Z.to_nat (pr - pl + 1)) in
        (insertion_sort v a pl pr, stack, depths) in
    match stack, depths with
    | (pl, pr) :: stack, cdepth :: depths => aquicksort_loop v a pl pr stack depths cdepth fuel
    | _, _ => a
    end
  end.

(** [npy_get_msb(n)]: the position of the highest set bit. *)
Definition npy_get_msb (n : Z) : Z := Z.log2 n.

(** [np.argsort(v, kind='quicksort')]: [tosort] starts as [0, ..., num-1]. *)
Definition aquicksort (v : list Q) : buf :=
  let num := Z.of_nat (List.length v) in
  aquicksort_loop v (map Z.of_nat (seq 0 (List.length v))) 0 (num - 1) [] []
    (npy_get_msb num * 2) (S (2 * List.length v)).

(** pandas' [nargsort(items, kind='quicksort', ascending=False,
    na_position='last')]. *)
Definition nargsort_desc (items : list (option Q)) : list Z :=
  let idx := map Z.of_nat (seq 0 (List.length items)) in
  let pairs := combine idx items in
  let non_nan := filter (fun p => is_some (snd p)) pairs in
  let non_nans := flat_map (fun p => match snd p with Some x => [x] | None => [] end) non_nan in
  let non_nan_idx := map fst non_nan in
  let nan_idx := map fst (filter (fun p => negb (is_some (snd p))) pairs) in
  (* not ascending: both reversed, argsort, then the indexer reversed *)
  let non_nans := rev non_nans in
  let non_nan_idx := rev non_nan_idx in
  let indexer := map (fun k => nth (Z.to_nat k) non_nan_idx 0) (aquicksort non_nans) in
  rev indexer ++ nan_idx.

(** [df.take(indexer)]. *)
Definition df_take {A : Type} (rows : list A) (indexer : list Z) : list A :=
  flat_map (fun k => match nth_error rows (Z.to_nat k) with Some r => [r] | None => [] end)
    indexer.

(** [calculate_comparison_statistics] with the sort as it runs. With no
    ticker, [pd.DataFrame([])] has no column ['Current Return'] and
    [sort_values] raises [KeyError]. *)
Definition calculate_comparison_statistics_np
    (comparison_data : list (string * (option series * option series)))
    : py_result (list comparison_row) :=
  match comparison_data with
  | [] => Raise KeyError
  | _ =>
    let rows := comparison_rows comparison_data in
    Ok (df_take rows (nargsort_desc (map current_return rows)))
  end.

(** ** Per-ticker series and summary statistics (ytd_analysis.py, lines 62-193) *)

(** [ytd_by_year]: a dict from year to its Series of YTD values by month. *)
Definition ytd_dict : Type := list (Z * series).

(** [sorted(df["Year"].unique())], by insertion into a strictly
    increasing list. *)
Fixpoint insert_uniq (x : Z) (l : list Z) : list Z :=
  match l with
  | [] => [x]
  | y :: t => if x <? y then x :: l else if x =? y then l else y :: insert_uniq x t
  end.

Definition sorted_unique (l : list Z) : list Z := fold_right insert_uniq [] l.

(** Python's [max]/[min] on a sequence of ints. *)
Definition py_max (l : list Z) : py_result Z :=
  match l with [] => Raise ValueError | x :: t => Ok (fold_left Z.max t x) end.

Definition py_min (l : list Z) : py_result Z :=
  match l with [] => Raise ValueError | x :: t => Ok (fold_left Z.min t x) end.

Definition year_series (df : list ytd_row) (y : Z) : series :=
  map (fun r => (r_month r, r_ytd r)) (filter (fun r => Z.eqb (r_year r) y) df).

(** [prepare_ytd_series] (lines 62-97): [(ytd_by_year, highlight_year,
    last_month_highlight)]. *)
Definition prepare_ytd_series (df : list ytd_row) (current_year : Z)
    : py_result (ytd_dict * Z * Z) :=
  let years := sorted_unique (map r_year df) in
  let ytd_by_year := map (fun y => (y, year_series df y)) years in
  let current_year_data := filter (fun r => Z.eqb (r_year r) current_year) df in
  match current_year_data with
  | _ :: _ =>
    match py_max (map r_month current_year_data) with
    | Ok m => Ok (ytd_by_year, current_year, m)
    | Raise e => Raise e
    end
  | [] =>
    match py_max years with
    | Raise e => Raise e
    | Ok hy =>
      match py_max (map r_month (filter (fun r => Z.eqb (r_year r) hy) df)) with
      | Ok m => Ok (ytd_by_year, hy, m)
      | Raise e => Raise e
      end
    end
  end.

Fixpoint sumQ (l : list Q) : Q :=
  match l with [] => 0%Q | x :: t => (x + sumQ t)%Q end.

(** [np.mean]. *)
Definition np_mean (l : list Q) : Q := (sumQ l / inject_Z (Z.of_nat (List.length l)))%Q.

(** The label 12 occurs more than once in the series' index: then
    [series.get(12)] and [series.loc[12]] are Series, not numbers. *)
Definition dup12 (s : series) : bool :=
  Nat.leb 2 (List.length (filter (fun p => fst p =? 12) s)).

Section Statistics.

(** The square root used by [np.std]. *)
Variable sqrtQ : Q -> Q.

(** [np.std(l, ddof=1)]. *)
Definition np_std_ddof1 (l : list Q) : Q :=
  sqrtQ (sumQ (map (fun x => (x - np_mean l) ^ 2)%Q l)
         / inject_Z (Z.of_nat (List.length l) - 1))%Q.

(** [calculate_historical_average] (lines 100-127): [(avg, std, n_years)];
    [ytd_by_year[y].get(12, np.nan)] is [assoc 12] when the label 12 occurs
    at most once; otherwise it is a Series and [not np.isnan(r)] raises. *)
Definition calculate_historical_average (ytd_by_year : ytd_dict) (exclude_year : option Z)
    : py_result (option Q * option Q * nat) :=
  let completed_years :=
    filter (fun p => match exclude_year with
                     | Some e => negb (Z.eqb (fst p) e)
                     | None => true
                     end) ytd_by_year in
  if existsb (fun p => dup12 (snd p)) completed_years then Raise ValueError else
  let dec_returns := map (fun p => assoc 12 (snd p)) completed_years in
  let dec_returns_clean :=
    flat_map (fun o => match o with Some r => [r] | None => [] end) dec_returns in
  Ok (match dec_returns_clean with [] => None | _ => Some (np_mean dec_returns_clean) end,
      if Nat.ltb 1 (List.length dec_returns_clean) then Some (np_std_ddof1 dec_returns_clean) else None,
      List.length dec_returns_clean).

Record summary : Type := mkSummary {
  actual_start_year : Z;
  highlight_year : Z;
  last_month_highlight : Z;
  avg_full_year_ytd : option Q;
  std_full_year_ytd : option Q;
  n_years : nat;
  best_year : option Z;
  best_return : option Q;
  worst_year : option Z;
  worst_return : option Q;
  current_ytd : option Q }.

(** [max(keys, key=...)]: an item replaces the current one only when its
    key is strictly greater. *)
Definition py_max_by_value (l : list (Z * Q)) : option (Z * Q) :=
  match l with
  | [] => None
  | k :: t => Some (fold_left (fun best k =>
                       if Qle_bool (snd k) (snd best) then best else k) t k)
  end.

(** [min(keys, key=...)]: replaced only when strictly smaller. *)
Definition py_min_by_value (l : list (Z * Q)) : option (Z * Q) :=
  match l with
  | [] => None
  | k :: t => Some (fold_left (fun best k =>
                       if Qle_bool (snd best) (snd k) then best else k) t k)
  end.

(** Lines 160-164: [year_end_returns]. *)
Definition year_end_returns (ytd_by_year : ytd_dict) : list (Z * Q) :=
  flat_map (fun '(y, s) => match assoc 12 s with Some v => [(y, v)] | None => [] end)
    ytd_by_year.

(** [get_summary_statistics] (lines 130-193). *)
Definition get_summary_statistics (ytd_by_year : ytd_dict) (highlight_year : Z)
    (last_month_highlight : Z) : py_result summary :=
  match py_min (map fst ytd_by_year) with
  | Raise e => Raise e
  | Ok actual_start_year =>
    let exclude_year := if last_month_highlight <? 12 then Some highlight_year else None in
    match calculate_historical_average ytd_by_year exclude_year with
    | Raise e => Raise e
    | Ok (avg, std, n) =>
    (* lines 158-162: [not np.isnan(series.loc[12])] raises as above *)
    if existsb (fun p => dup12 (snd p)) ytd_by_year then Raise ValueError else
    let yer := year_end_returns ytd_by_year in
    let best := py_max_by_value yer in
    let worst := py_min_by_value yer in
    let current_ytd :=
      match assoc highlight_year ytd_by_year with
      | Some s => iloc_last (Some s)
      | None => None
      end in
    Ok (mkSummary actual_start_year highlight_year last_month_highlight avg std n
          (option_map fst best) (option_map snd best)
          (option_map fst worst) (option_map snd worst) current_ytd)
    end
  end.

End Statistics.

(** The December value of a year in [ytd_by_year]. *)
Definition december_value (ytd_by_year : ytd_dict) (y : Z) : option Q :=
  match assoc y ytd_by_year with Some s => assoc 12 s | None => None end.

(** ** Column headers of [format_comparison_table]
    (multi_ticker_analysis.py, lines 168-208); the cell values are float
    formatting and are not modelled. *)

(** Python's [str] of an int, in decimal. *)
Fixpoint uint_to_string (d : Decimal.uint) : string :=
  match d with
  | Decimal.Nil => ""
  | Decimal.D0 d => "0" ++ uint_to_string d
  | Decimal.D1 d => "1" ++ uint_to_string d
  | Decimal.D2 d => "2" ++ uint_to_string d
  | Decimal.D3 d => "3" ++ uint_to_string d
  | Decimal.D4 d => "4" ++ uint_to_string d
  | Decimal.D5 d => "5" ++ uint_to_string d
  | Decimal.D6 d => "6" ++ uint_to_string d
  | Decimal.D7 d => "7" ++ uint_to_string d
  | Decimal.D8 d => "8" ++ uint_to_string d
  | Decimal.D9 d => "9" ++ uint_to_string d
  end%string.

Definition py_str_int (z : Z) : string :=
  match Z.to_int z with
  | Decimal.Pos d => uint_to_string d
  | Decimal.Neg d => "-" ++ uint_to_string d
  end%string.

Definition month_names : list string :=
  ["Jan"; "Feb"; "Mar"; "Apr"; "May"; "Jun"; "Jul"; "Aug"; "Sep"; "Oct"; "Nov"; "Dec"]%string.

(** [lst[i]] on a Python list: negative indices count from the end; [None]
    is the [IndexError]. *)
Definition py_index {A : Type} (l : list A) (i : Z) : option A :=
  let n := Z.of_nat (List.length l) in
  if (i <? - n) || (n <=? i) then None
  else nth_error l (Z.to_nat (if i <? 0 then i + n else i)).

Definition newline : string := String (Ascii.ascii_of_nat 10) EmptyString.

(** [(current_period, prior_period)] of [format_comparison_table]. *)
Definition comparison_table_headers (current_year prior_year last_month : Z)
    (is_january : bool) : option (string * string) :=
  if is_january then
    Some ("Full " ++ py_str_int prior_year, "Full " ++ py_str_int (prior_year - 1))%string
  else
    match py_index month_names (last_month - 1) with
    | None => None
    | Some month_str =>
      Some ("YTD " ++ py_str_int current_year ++ newline ++ "(through " ++ month_str ++ ")",
            "YTD " ++ py_str_int prior_year ++ newline ++ "(through " ++ month_str ++ ")")%string
    end.

(** The comparison page calls [format_comparison_table(stats_df,
    compare_year, baseline_year, last_month, is_january)] (lines 253-259). *)
Definition page_table_headers (today_year today_month : Z) : option (string * string) :=
  let w := calendar_window today_year today_month in
  comparison_table_headers (comparison_year w) (baseline_year w)
    (last_completed_month w) (is_january_mode w).

(** The sidebar text of the page (lines 64-67) in January: the two years
    compared. *)
Definition page_sidebar_january_years (today_year today_month : Z) : Z * Z :=
  let w := calendar_window today_year today_month in
  (comparison_year w, baseline_year w).

(** The comparison page's per-ticker pipeline (lines 189-222): load from
    [baseline_year - 1], compute YTD up to [compare_year], then extract the
    current and prior series. *)
Definition page_ticker_series (today_year today_month : Z) (data : list bar)
    : py_result (option series * option series) :=
  let w := calendar_window today_year today_month in
  match calculate_ytd_returns today_year today_month data
          (baseline_year w - 1) (comparison_year w) with
  | Raise e => Raise e
  | Ok ytd =>
    Ok (get_ytd_for_comparison ytd (comparison_year w) (last_completed_month w),
        get_ytd_for_comparison ytd (baseline_year w) (last_completed_month w))
  end.

(** ** Auxiliary definitions used by the proofs *)

Definition bar_key (b : bar) : Z * Z := (b_year b, b_month b).

Definition ytd_rows (dec : list (Z * Q)) (l : list bar) : list ytd_row :=
  flat_map (fun b => match ytd_of dec b with Some r => [r] | None => [] end) l.

Definition same_cell (y m : Z) (o : ytd_row) : bool := (r_year o =? y) && (r_month o =? m).

Definition key_lt {V : Type} (a b : Z * V) : Prop := fst a < fst b.

(** [keep_best le] is the update step of Python's [max]/[min] with a key:
    [keep_best Qle_bool] is the step of [py_max_by_value] and
    [keep_best (fun a b => Qle_bool b a)] the step of [py_min_by_value];
    [best_of le P acc] says [acc] is a first best element of [P]. *)
Definition keep_best (le : Q -> Q -> bool) (best k : Z * Q) : Z * Q :=
  if le (snd k) (snd best) then best else k.

Definition best_of (le : Q -> Q -> bool) (P : list (Z * Q)) (acc : Z * Q) : Prop :=
  In acc P /\
  (forall x, In x P -> le (snd x) (snd acc) = true) /\
  (forall x, In x P -> le (snd acc) (snd x) = true -> fst acc <= fst x).

(** [take_greater key q l] splits [l] before its first element whose key
    is not greater than [q]: the elements the insertion sort shifts. *)
Fixpoint take_greater {A : Type} (key : A -> Q) (q : Q) (l : list A) : list A * list A :=
  match l with
  | [] => ([], [])
  | y :: t =>
    if np_less q (key y) then let '(m, k) := take_greater key q t in (y :: m, k)
    else ([], l)
  end.

(** One round of [insertion_sort]'s outer loop on the sorted prefix [P]. *)
Definition ins_right {A : Type} (key : A -> Q) (x : A) (P : list A) : list A :=
  let '(moved, kept) := take_greater key (key x) (rev P) in rev kept ++ x :: rev moved.

(** The same round seen on the reversed prefix. *)
Definition ins_desc {A : Type} (key : A -> Q) (x : A) (l : list A) : list A :=
  let '(m, k) := take_greater key (key x) l in m ++ x :: k.

Definition pair_key (p : Z * option Q) : Q := match snd p with Some x => x | None => 0%Q end.

Definition row_key (r : comparison_row) : Q :=
  match current_return r with Some x => x | None => 0%Q end.

Definition no_row : comparison_row := mkCRow "" None None None.

(** ** Concrete inputs *)

Definition c2_bars : list bar :=
  [mkBar 2022 6 80; mkBar 2023 1 90; mkBar 2023 12 100;
   mkBar 2024 1 110; mkBar 2024 2 99; mkBar 2024 12 120].



Definition c7_tables : list (string * list ytd_row) :=
  [("A"%string, [mkRow 2025 1 100 (1 # 100); mkRow 2026 1 100 (2 # 100)]);
   ("B"%string, [mkRow 2024 1 100 (3 # 100)])].

Definition c9_rows : list ytd_row :=
  [mkRow 2023 6 100 (1 # 10); mkRow 2023 12 120 (2 # 10);
   mkRow 2024 12 120 (2 # 10); mkRow 2025 1 90 (-1 # 10); mkRow 2025 2 95 (-5 # 100)].

Definition c9_dict : ytd_dict :=
  [(2023, [(6, 1 # 10); (12, 2 # 10)]); (2024, [(12, 2 # 10)]);
   (2025, [(1, -1 # 10); (2, -5 # 100)])].

Definition c9_summary : summary :=
  mkSummary 2023 2025 2 (Some (40 # 200)) (Some (0 # 16000000000000)) 2
    (Some 2023) (Some (2 # 10)) (Some 2023) (Some (2 # 10)) (Some (-5 # 100)).

(** * Properties *)

(** ** Sanity checks on concrete inputs *)

(** Scenario of the spec (sec. 8): Dec-2023=100, Jan-2024=110, Feb-2024=99,
    Dec-2024=120, computed in October 2026. *)
Example scenario_2024 :
  calculate_ytd_returns 2026 10
    [mkBar 2023 12 100; mkBar 2024 1 110; mkBar 2024 2 99; mkBar 2024 12 120]
    2023 2024
  = Ok [mkRow 2024 1 110 (110 / 100 - 1); mkRow 2024 2 99 (99 / 100 - 1);
        mkRow 2024 12 120 (120 / 100 - 1)].
Proof. reflexivity. Qed.

(** Two December bars for one year make [Series.map] raise. *)
Example duplicate_december_raises :
  calculate_ytd_returns 2026 10
    [mkBar 2023 12 100; mkBar 2023 12 101; mkBar 2024 1 110] 2023 2024
  = Raise InvalidIndexError.
Proof. reflexivity. Qed.

(** ** Lemmas on the lookups *)

Lemma assoc_In {V : Type} (k : Z) (v : V) (l : list (Z * V)) :
  assoc k l = Some v -> In (k, v) l.
Proof.
  induction l as [|[k' v'] t IH]; simpl; [discriminate|].
  destruct (Z.eqb_spec k k') as [->|_]; [intros [= ->]; now left|].
  intros H; right; auto.
Qed.

Lemma In_assoc {V : Type} (k : Z) (v : V) (l : list (Z * V)) :
  In (k, v) l -> exists v', assoc k l = Some v'.
Proof.
  induction l as [|[k' v'] t IH]; simpl; [contradiction|].
  destruct (Z.eqb_spec k k'); [eauto|].
  intros [H|H]; [congruence|auto].
Qed.

Lemma has_dup_false_NoDup (l : list Z) : has_dup l = false <-> NoDup l.
Proof.
  induction l as [|x t IH]; simpl.
  - split; [constructor|reflexivity].
  - rewrite orb_false_iff. split.
    + intros [H1 H2]. constructor; [|now apply IH].
      intros Hin. assert (existsb (Z.eqb x) t = true) by
        (apply existsb_exists; exists x; split; [exact Hin|apply Z.eqb_refl]).
      congruence.
    + intros Hnd. inversion Hnd as [|? ? Hnin Hnd']; subst. split; [|now apply IH].
      destruct (existsb (Z.eqb x) t) eqn:E; [|reflexivity].
      apply existsb_exists in E as [y [Hy Hxy]]. apply Z.eqb_eq in Hxy; subst; contradiction.
Qed.

Lemma NoDup_keys_functional {V : Type} (l : list (Z * V)) (k : Z) (v1 v2 : V) :
  NoDup (map fst l) -> In (k, v1) l -> In (k, v2) l -> v1 = v2.
Proof.
  induction l as [|[k' v'] t IH]; simpl; [contradiction|].
  intros Hnd; inversion Hnd as [|? ? Hnin Hnd']; subst.
  intros [H1|H1] [H2|H2].
  - congruence.
  - inversion H1; subst. exfalso; apply Hnin. apply (in_map fst t (k, v2)) in H2; exact H2.
  - inversion H2; subst. exfalso; apply Hnin. apply (in_map fst t (k, v1)) in H1; exact H1.
  - auto.
Qed.

Lemma In_dec_baseline (df : list bar) (k : Z) (c : Q) :
  In (k, c) (dec_baseline df) <->
  exists b, In b df /\ b_month b = 12 /\ k = b_year b + 1 /\ c = b_close b.
Proof.
  unfold dec_baseline. rewrite in_map_iff. split.
  - intros [b [Hb Hin]]. apply filter_In in Hin as [Hin Hm].
    apply Z.eqb_eq in Hm. inversion Hb; subst. eauto.
  - intros [b [Hin [Hm [-> ->]]]]. exists b. split; [reflexivity|].
    apply filter_In. split; [exact Hin|]. now apply Z.eqb_eq.
Qed.

Lemma In_processed (ty tm s e : Z) (df : list bar) (b : bar) :
  In b (processed_bars ty tm s e df) <->
  In b df /\ s <= b_year b <= e /\
  ~ (e = ty /\ b_year b = e /\ tm <= b_month b).
Proof.
  unfold processed_bars, in_range.
  destruct (Z.eqb_spec e ty) as [Heq|Hne].
  - rewrite filter_In, filter_In, andb_true_iff, Z.leb_le, Z.leb_le.
    destruct (Z.eqb_spec (b_year b) e); destruct (Z.leb_spec tm (b_month b)); simpl;
      split; intuition (try discriminate; try lia).
  - rewrite filter_In, andb_true_iff, Z.leb_le, Z.leb_le. intuition.
Qed.

Lemma In_ytd_rows (dec : list (Z * Q)) (l : list bar) (o : ytd_row) :
  In o (flat_map (fun b => match ytd_of dec b with Some r => [r] | None => [] end) l) <->
  exists b, In b l /\ ytd_of dec b = Some o.
Proof.
  rewrite in_flat_map. split.
  - intros [b [Hb Ho]]. exists b. split; [exact Hb|].
    destruct (ytd_of dec b); simpl in Ho; [destruct Ho as [->|[]]; reflexivity|contradiction].
  - intros [b [Hb Ho]]. exists b. rewrite Ho. simpl; auto.
Qed.

Lemma bar_eta (b : bar) : b = mkBar (b_year b) (b_month b) (b_close b).
Proof. now destruct b. Qed.

(** An emitted row comes from a processed bar whose year has a prior
    December close among the processed bars. *)
Lemma calculate_ytd_returns_row_origin (ty tm s e : Z) (df : list bar) obs o :
  calculate_ytd_returns ty tm df s e = Ok obs -> In o obs ->
  NoDup (map fst (dec_baseline (processed_bars ty tm s e df))) /\
  exists b c,
    In b (processed_bars ty tm s e df) /\
    assoc (b_year b) (dec_baseline (processed_bars ty tm s e df)) = Some c /\
    o = mkRow (b_year b) (b_month b) (b_close b) (b_close b / c - 1)%Q.
Proof.
  unfold calculate_ytd_returns.
  destruct (has_dup _) eqn:Hd; [discriminate|].
  intros [= <-] Ho. split; [now apply has_dup_false_NoDup|].
  apply In_ytd_rows in Ho as [b [Hb Hy]].
  unfold ytd_of in Hy. destruct (assoc _ _) as [c|] eqn:Ha; [|discriminate].
  inversion Hy; subst. eauto.
Qed.

(** ** C1 *)

(** C1: every emitted row's [ytd_return] is its close divided by the
    December close of the previous year for the same ticker, minus 1; that
    December bar is in the input and every input bar for that December has
    the same close. *)
Theorem calculate_ytd_returns_value (ty tm s e : Z) (df : list bar) (obs : list ytd_row) :
  calculate_ytd_returns ty tm df s e = Ok obs ->
  forall o, In o obs ->
  exists dec_close,
    In (mkBar (r_year o) (r_month o) (r_close o)) df /\
    In (mkBar (r_year o - 1) 12 dec_close) df /\
    (forall c, In (mkBar (r_year o - 1) 12 c) df -> c = dec_close) /\
    r_ytd o = (r_close o / dec_close - 1)%Q.
Proof.
  intros Hc o Ho.
  destruct (calculate_ytd_returns_row_origin ty tm s e df obs o Hc Ho)
    as [Hnd [b [c [Hb [Ha ->]]]]]; simpl.
  pose proof (assoc_In _ _ _ Ha) as Hin.
  apply In_dec_baseline in Hin as [bd [Hbd [Hm [Hy Hcl]]]].
  pose proof Hbd as Hbd'. apply In_processed in Hbd' as [Hbd_df [Hr _]].
  pose proof Hb as Hb'. apply In_processed in Hb' as [Hb_df [Hrb _]].
  exists c. split; [|split; [|split]].
  - rewrite <- bar_eta. exact Hb_df.
  - replace (mkBar (b_year b - 1) 12 c) with bd; [exact Hbd_df|].
    rewrite (bar_eta bd). f_equal; [lia|exact Hm|exact (eq_sym Hcl)].
  - intros c' Hc'.
    assert (Hp : In (mkBar (b_year b - 1) 12 c') (processed_bars ty tm s e df)).
    { apply In_processed. simpl. split; [exact Hc'|]. split; [lia|]. lia. }
    assert (Hd : In (b_year b, c') (dec_baseline (processed_bars ty tm s e df))).
    { apply In_dec_baseline. eexists; split; [exact Hp|]. simpl. split; [reflexivity|].
      split; [lia|reflexivity]. }
    exact (NoDup_keys_functional _ _ _ _ Hnd Hd (assoc_In _ _ _ Ha)).
  - reflexivity.
Qed.

Lemma calculate_ytd_returns_value_witness :
  calculate_ytd_returns 2026 10
    [mkBar 2023 12 100; mkBar 2024 1 110; mkBar 2024 2 99; mkBar 2024 12 120] 2023 2024
  = Ok [mkRow 2024 1 110 (110 / 100 - 1); mkRow 2024 2 99 (99 / 100 - 1);
        mkRow 2024 12 120 (120 / 100 - 1)] /\
  exists dec_close,
    In (mkBar 2024 2 99) [mkBar 2023 12 100; mkBar 2024 1 110; mkBar 2024 2 99; mkBar 2024 12 120] /\
    In (mkBar (2024 - 1) 12 dec_close)
       [mkBar 2023 12 100; mkBar 2024 1 110; mkBar 2024 2 99; mkBar 2024 12 120] /\
    (forall c, In (mkBar (2024 - 1) 12 c)
       [mkBar 2023 12 100; mkBar 2024 1 110; mkBar 2024 2 99; mkBar 2024 12 120] -> c = dec_close) /\
    (99 / 100 - 1)%Q = (99 / dec_close - 1)%Q.
Proof.
  split; [reflexivity|].
  apply (calculate_ytd_returns_value 2026 10 2023 2024
    [mkBar 2023 12 100; mkBar 2024 1 110; mkBar 2024 2 99; mkBar 2024 12 120]
    [mkRow 2024 1 110 (110 / 100 - 1); mkRow 2024 2 99 (99 / 100 - 1);
     mkRow 2024 12 120 (120 / 100 - 1)]
    eq_refl (mkRow 2024 2 99 (99 / 100 - 1))).
  simpl; auto.
Defined.

(** ** C10 *)

(** C10: no emitted row has year [start_year]: the December lookup only
    holds years of the range, so the first year of the range has no
    baseline. *)
Theorem calculate_ytd_returns_skips_start_year (ty tm s e : Z) (df : list bar)
    (obs : list ytd_row) :
  calculate_ytd_returns ty tm df s e = Ok obs ->
  forall o, In o obs -> r_year o <> s.
Proof.
  intros Hc o Ho.
  destruct (calculate_ytd_returns_row_origin ty tm s e df obs o Hc Ho)
    as [_ [b [c [Hb [Ha ->]]]]]; simpl.
  apply assoc_In, In_dec_baseline in Ha as [bd [Hbd [_ [Hy _]]]].
  apply In_processed in Hbd as [_ [Hr _]]. lia.
Qed.

Lemma calculate_ytd_returns_skips_start_year_witness :
  calculate_ytd_returns 2026 10
    [mkBar 2023 12 100; mkBar 2024 1 110; mkBar 2024 12 120] 2023 2024
  = Ok [mkRow 2024 1 110 (110 / 100 - 1); mkRow 2024 12 120 (120 / 100 - 1)] /\
  r_year (mkRow 2024 1 110 (110 / 100 - 1)) <> 2023.
Proof.
  split; [reflexivity|].
  apply (calculate_ytd_returns_skips_start_year 2026 10 2023 2024
    [mkBar 2023 12 100; mkBar 2024 1 110; mkBar 2024 12 120]
    [mkRow 2024 1 110 (110 / 100 - 1); mkRow 2024 12 120 (120 / 100 - 1)] eq_refl).
  simpl; auto.
Defined.

(** ** C3 *)

(** C3: in January the window is the previous full year against the year
    before it; in any other month it is the current year through the
    previous month against the year before. *)
Theorem calendar_window_spec :
  (forall today_year today_month,
     calendar_window today_year today_month =
       if Z.eqb today_month 1
       then mkWindow today_year (today_year - 1) 12 true (today_year - 1 - 1)
       else mkWindow today_year today_year (today_month - 1) false (today_year - 1)) /\
  calendar_window 2026 1 = mkWindow 2026 2025 12 true 2024 /\
  calendar_window 2026 3 = mkWindow 2026 2026 2 false 2025.
Proof.
  split; [|split; reflexivity].
  intros ty tm. unfold calendar_window, determine_comparison_years.
  destruct (Z.eqb tm 1); reflexivity.
Qed.

(** ** C4 *)

(** C4 (as stated, refuted): on an empty bar sequence the calculator does
    not fail; it returns an empty table. *)
Lemma calculate_ytd_returns_empty_no_failure :
  match calculate_ytd_returns 2026 3 [] 2024 2026 with
  | Raise _ => False
  | Ok rows => rows = []
  end.
Proof. reflexivity. Qed.

(** C4 (amended): on an empty bar sequence, and on bars that all lie
    outside the requested years, the calculator returns an empty table,
    whatever the date. The comparison page classifies a ticker as failed
    (no data) exactly when its bar sequence is empty or its table is
    empty; a raised exception is not caught there. *)
Theorem calculate_ytd_returns_empty_input (ty tm s e : Z) :
  calculate_ytd_returns ty tm [] s e = Ok [] /\
  load_ticker_step ty tm [] s e = Ok None /\
  (forall data, (forall b, In b data -> b_year b < s \/ e < b_year b) ->
     calculate_ytd_returns ty tm data s e = Ok [] /\
     load_ticker_step ty tm data s e = Ok None) /\
  (forall data, load_ticker_step ty tm data s e = Ok None <->
                data = [] \/ calculate_ytd_returns ty tm data s e = Ok []).
Proof.
  assert (Hout : forall data, (forall b, In b data -> b_year b < s \/ e < b_year b) ->
            calculate_ytd_returns ty tm data s e = Ok []).
  { intros data Hd. unfold calculate_ytd_returns.
    assert (Hp : processed_bars ty tm s e data = []).
    { unfold processed_bars.
      assert (Hf : filter (in_range s e) data = []).
      { induction data as [|b t IH]; [reflexivity|]. simpl.
        replace (in_range s e b) with false.
        - apply IH. intros b' Hb'. apply Hd. now right.
        - unfold in_range. destruct (Hd b (or_introl eq_refl)) as [H|H].
          + symmetry. apply andb_false_iff. left. apply Z.leb_gt. exact H.
          + symmetry. apply andb_false_iff. right. apply Z.leb_gt. exact H. }
      rewrite Hf. now destruct (e =? ty). }
    rewrite Hp. reflexivity. }
  split; [apply Hout; intros b []|]. split; [reflexivity|]. split.
  - intros data Hd. pose proof (Hout data Hd) as Hc. split; [exact Hc|].
    unfold load_ticker_step. destruct data; [reflexivity|]. now rewrite Hc.
  - intros data. unfold load_ticker_step. destruct data as [|b t].
    + split; [now left|reflexivity].
    + destruct (calculate_ytd_returns ty tm (b :: t) s e) as [[|r rs]|err].
      * split; [now right|reflexivity].
      * split; [discriminate|]. intros [H|H]; discriminate.
      * split; [discriminate|]. intros [H|H]; discriminate.
Qed.

(** Bars of 2020 only, for the years 2024-2026: an empty table, and the
    ticker counted as failed. *)
Lemma calculate_ytd_returns_empty_input_witness :
  calculate_ytd_returns 2026 3 [mkBar 2020 12 100; mkBar 2020 12 101] 2024 2026 = Ok [] /\
  load_ticker_step 2026 3 [mkBar 2020 12 100; mkBar 2020 12 101] 2024 2026 = Ok None.
Proof.
  apply (proj1 (proj2 (proj2 (calculate_ytd_returns_empty_input 2026 3 2024 2026)))).
  intros b Hb. simpl in Hb. destruct Hb as [<-|[<-|[]]]; simpl; lia.
Defined.

(** ** C5 *)

(** C5: the extracted series of a year holds exactly the table's months
    [<= last_month] of that year with their YTD values; later months are
    absent, and no series at all is returned when none remains. *)
Theorem get_ytd_for_comparison_truncates :
  (forall (df : list ytd_row) (year last_month : Z),
     match get_ytd_for_comparison df year last_month with
     | Some s =>
       (forall m v, In (m, v) s -> m <= last_month) /\
       (forall m v, In (m, v) s <->
          exists r, In r df /\ r_year r = year /\ r_month r = m /\ r_ytd r = v /\
                    m <= last_month)
     | None => forall r, In r df -> r_year r = year -> last_month < r_month r
     end) /\
  get_ytd_for_comparison
    [mkRow 2026 1 100 (1 # 100); mkRow 2026 2 100 (2 # 100);
     mkRow 2026 3 100 (3 # 100); mkRow 2026 4 100 (4 # 100)] 2026 2
  = Some [(1, 1 # 100); (2, 2 # 100)].
Proof.
  split; [|reflexivity].
  intros df year lm.
  assert (Hmem : forall m v,
    In (m, v) (filter (fun p => fst p <=? lm)
                 (map (fun r => (r_month r, r_ytd r))
                    (filter (fun r => Z.eqb (r_year r) year) df))) <->
    exists r, In r df /\ r_year r = year /\ r_month r = m /\ r_ytd r = v /\ m <= lm).
  { intros m v. rewrite filter_In, in_map_iff. simpl. rewrite Z.leb_le. split.
    - intros [[r [Hr Hin]] Hle]. apply filter_In in Hin as [Hin Hy].
      apply Z.eqb_eq in Hy. inversion Hr; subst. exists r; auto.
    - intros [r [Hin [Hy [Hm [Hv Hle]]]]]. split; [|exact Hle].
      exists r. subst. split; [reflexivity|]. apply filter_In.
      split; [exact Hin|]. now apply Z.eqb_eq. }
  unfold get_ytd_for_comparison.
  destruct (filter (fun r => Z.eqb (r_year r) year) df) as [|r0 t] eqn:Hyd.
  - intros r Hr Hy. assert (In r (filter (fun r => Z.eqb (r_year r) year) df))
      by (apply filter_In; split; [exact Hr|now apply Z.eqb_eq]).
    rewrite Hyd in H. contradiction.
  - rewrite <- Hyd. rewrite <- Hyd in Hmem.
    destruct (filter (fun p => fst p <=? lm) _) as [|p s'] eqn:Hs.
    + intros r Hr Hy. destruct (Z.lt_ge_cases lm (r_month r)) as [Hlt|Hge]; [exact Hlt|].
      exfalso. apply (proj2 (Hmem (r_month r) (r_ytd r))). eauto 6.
    + split; [|exact Hmem]. intros m v Hin. apply Hmem in Hin.
      destruct Hin as [r [_ [_ [_ [_ Hle]]]]]. exact Hle.
Qed.

(** ** C2 *)


(** Filtering rows keeps a key column free of repeats. *)
Lemma NoDup_map_filter {A B : Type} (keep : A -> bool) (key : A -> B) (rows : list A)
    (Hrows : NoDup (map key rows)) : NoDup (map key (filter keep rows)).
Proof.
  revert Hrows. rename keep into p, key into f, rows into l.
  induction l as [|a t IH]; simpl; intros H; [constructor|].
  inversion H as [|? ? Hnin Hnd]; subst.
  destruct (p a); simpl; [|auto].
  constructor; [|auto].
  intros Hin. apply Hnin. apply in_map_iff in Hin as [x [Hx Hin]].
  apply filter_In in Hin as [Hin _]. rewrite <- Hx. now apply in_map.
Qed.

Lemma NoDup_map_coarser {A B C : Type} (f : A -> B) (g : A -> C) (l : list A) :
  (forall x y, In x l -> In y l -> g x = g y -> f x = f y) ->
  NoDup (map f l) -> NoDup (map g l).
Proof.
  induction l as [|a t IH]; simpl; intros Hfg H; [constructor|].
  inversion H as [|? ? Hnin Hnd]; subst. constructor.
  - intros Hin. apply in_map_iff in Hin as [y [Hy Hin]]. apply Hnin.
    rewrite (Hfg a y); [now apply in_map|now left|now right|now symmetry].
  - apply IH; [|exact Hnd]. intros x y Hx Hy; apply Hfg; now right.
Qed.

Lemma processed_NoDup (ty tm s e : Z) (df : list bar) :
  NoDup (map bar_key df) -> NoDup (map bar_key (processed_bars ty tm s e df)).
Proof.
  unfold processed_bars. destruct (Z.eqb e ty); intros H;
    repeat apply NoDup_map_filter; exact H.
Qed.

Lemma dec_baseline_NoDup (l : list bar) :
  NoDup (map bar_key l) -> NoDup (map fst (dec_baseline l)).
Proof.
  intros H. unfold dec_baseline. rewrite map_map. simpl.
  apply (NoDup_map_coarser bar_key); [|now apply NoDup_map_filter].
  intros x y Hx Hy Hxy. apply filter_In in Hx as [_ Hx]. apply filter_In in Hy as [_ Hy].
  apply Z.eqb_eq in Hx. apply Z.eqb_eq in Hy. unfold bar_key. f_equal; lia.
Qed.


Lemma ytd_rows_cons (dec : list (Z * Q)) (b : bar) (l : list bar) :
  ytd_rows dec (b :: l) =
  match ytd_of dec b with Some r => [r] | None => [] end ++ ytd_rows dec l.
Proof. reflexivity. Qed.

Lemma count_cell_zero (dec : list (Z * Q)) (l : list bar) (y m : Z) :
  (forall b, In b l -> bar_key b <> (y, m)) ->
  List.length (filter (same_cell y m) (ytd_rows dec l)) = 0%nat.
Proof.
  induction l as [|b0 t IH]; intros Hk; [reflexivity|].
  rewrite ytd_rows_cons, filter_app, length_app, IH by (intros b Hb; apply Hk; now right).
  unfold ytd_of. destruct (assoc _ _); [|reflexivity]. simpl. unfold same_cell. simpl.
  specialize (Hk b0 (or_introl eq_refl)). unfold bar_key in Hk.
  destruct (Z.eqb_spec (b_year b0) y); destruct (Z.eqb_spec (b_month b0) m);
    simpl; try reflexivity. subst. exfalso; apply Hk; reflexivity.
Qed.

Lemma count_cell_one (dec : list (Z * Q)) (l : list bar) (b : bar) :
  NoDup (map bar_key l) -> In b l -> (exists c, assoc (b_year b) dec = Some c) ->
  List.length (filter (same_cell (b_year b) (b_month b)) (ytd_rows dec l)) = 1%nat.
Proof.
  induction l as [|b0 t IH]; intros Hnd Hin [c Hc]; [contradiction Hin|].
  simpl in Hin. inversion Hnd as [|? ? Hnin Hnd']; subst.
  rewrite ytd_rows_cons, filter_app, length_app.
  destruct (Z.eq_dec (b_year b0) (b_year b)) as [Hy|Hy];
  [destruct (Z.eq_dec (b_month b0) (b_month b)) as [Hm|Hm]|].
  - rewrite count_cell_zero.
    + unfold ytd_of. rewrite Hy, Hc. simpl. unfold same_cell; simpl.
      rewrite Hm, !Z.eqb_refl. reflexivity.
    + intros b' Hb' Hk. apply Hnin. unfold bar_key at 1. rewrite Hy, Hm, <- Hk.
      now apply in_map.
  - destruct Hin as [->|Hin]; [contradiction|].
    rewrite IH by eauto. unfold ytd_of. destruct (assoc (b_year b0) dec); [|reflexivity].
    simpl. unfold same_cell; simpl. rewrite (proj2 (Z.eqb_neq _ _) Hm), andb_false_r.
    reflexivity.
  - destruct Hin as [->|Hin]; [contradiction|].
    rewrite IH by eauto. unfold ytd_of. destruct (assoc (b_year b0) dec); [|reflexivity].
    simpl. unfold same_cell; simpl. rewrite (proj2 (Z.eqb_neq _ _) Hy). reflexivity.
Qed.

(** C2: with at most one bar per (year, month), the calculator does not
    fail; a year whose previous December has no processed bar gets no row,
    and in a year whose previous December has one, every processed bar of
    that year gets exactly one row for its month (its YTD value is a
    number: the row type has no null). *)
Theorem calculate_ytd_returns_baseline_policy (ty tm s e : Z) (df : list bar) :
  NoDup (map bar_key df) ->
  exists obs,
    calculate_ytd_returns ty tm df s e = Ok obs /\
    forall y,
      ((forall c, ~ In (mkBar (y - 1) 12 c) (processed_bars ty tm s e df)) ->
         forall o, In o obs -> r_year o <> y) /\
      ((exists c, In (mkBar (y - 1) 12 c) (processed_bars ty tm s e df)) ->
         forall b, In b (processed_bars ty tm s e df) -> b_year b = y ->
         List.length (filter (fun o => (r_year o =? y) && (r_month o =? b_month b)) obs)
         = 1%nat).
Proof.
  intros Hnd.
  pose proof (processed_NoDup ty tm s e df Hnd) as Hnd'.
  pose proof (dec_baseline_NoDup _ Hnd') as Hdec.
  apply has_dup_false_NoDup in Hdec.
  exists (ytd_rows (dec_baseline (processed_bars ty tm s e df)) (processed_bars ty tm s e df)).
  split.
  { unfold calculate_ytd_returns. rewrite Hdec. reflexivity. }
  intros y. split.
  - intros Hno o Ho Hy. apply In_ytd_rows in Ho as [b [Hb Hyo]].
    unfold ytd_of in Hyo. destruct (assoc _ _) as [c|] eqn:Ha; [|discriminate].
    inversion Hyo; subst o. simpl in Hy.
    apply assoc_In, In_dec_baseline in Ha as [bd [Hbd [Hm [Hk Hc]]]].
    apply (Hno c). replace (mkBar (y - 1) 12 c) with bd; [exact Hbd|].
    rewrite (bar_eta bd). f_equal; [lia|exact Hm|exact (eq_sym Hc)].
  - intros [c Hc] b Hb Hy.
    change (fun o => (r_year o =? y) && (r_month o =? b_month b)) with (same_cell y (b_month b)).
    rewrite <- Hy. apply count_cell_one; [exact Hnd'|exact Hb|].
    apply (In_assoc _ c). apply In_dec_baseline.
    eexists; split; [exact Hc|]. simpl. split; [reflexivity|]. split; [lia|reflexivity].
Qed.


Lemma calculate_ytd_returns_baseline_policy_witness :
  NoDup (map bar_key c2_bars) /\
  exists obs,
    calculate_ytd_returns 2026 10 c2_bars 2022 2024 = Ok obs /\
    forall y,
      ((forall c, ~ In (mkBar (y - 1) 12 c) (processed_bars 2026 10 2022 2024 c2_bars)) ->
         forall o, In o obs -> r_year o <> y) /\
      ((exists c, In (mkBar (y - 1) 12 c) (processed_bars 2026 10 2022 2024 c2_bars)) ->
         forall b, In b (processed_bars 2026 10 2022 2024 c2_bars) -> b_year b = y ->
         List.length (filter (fun o => (r_year o =? y) && (r_month o =? b_month b)) obs)
         = 1%nat).
Proof.
  assert (H : NoDup (map bar_key c2_bars)).
  { unfold c2_bars, bar_key; simpl.
    repeat constructor; simpl; intuition discriminate. }
  split; [exact H|].
  exact (calculate_ytd_returns_baseline_policy 2026 10 2022 2024 c2_bars H).
Defined.

(** ** Lemmas on the comparison table *)

Lemma filter_partition_Permutation {A : Type} (f : A -> bool) (l : list A) :
  Permutation (filter f l ++ filter (fun x => negb (f x)) l) l.
Proof.
  induction l as [|a t IH]; simpl; [constructor|].
  destruct (f a); simpl.
  - now constructor.
  - rewrite <- Permutation_middle. now constructor.
Qed.

Lemma sort_values_Permutation (rows out : list comparison_row) :
  sort_values_current_desc rows out -> Permutation out rows.
Proof.
  intros [nn [Hp [_ ->]]].
  eapply Permutation_trans; [|apply (filter_partition_Permutation has_current)].
  now apply Permutation_app_tail.
Qed.

Lemma iloc_last_Some (s : series) (v : Q) :
  iloc_last (Some s) = Some v <-> exists pre m, s = pre ++ [(m, v)].
Proof.
  simpl. destruct (rev s) as [|[m' v'] x] eqn:E.
  - split; [discriminate|]. intros [pre [m ->]].
    rewrite rev_app_distr in E. discriminate E.
  - assert (Hs : s = rev x ++ [(m', v')]).
    { rewrite <- (rev_involutive s), E. reflexivity. }
    split.
    + intros [= <-]. eauto.
    + intros [pre [m Hpre]]. rewrite Hs in Hpre.
      apply app_inj_tail in Hpre as [_ Hpre]. now inversion Hpre.
Qed.

Lemma iloc_last_spec (s : option series) (v : Q) :
  iloc_last s = Some v <-> exists pre m, s = Some (pre ++ [(m, v)]).
Proof.
  destruct s as [s|].
  - rewrite iloc_last_Some.
    split; [intros [pre [m ->]]; eauto|intros [pre [m [= ->]]]; eauto].
  - split; [discriminate|]. intros [pre [m H]]; discriminate.
Qed.

Lemma get_ytd_for_comparison_nonempty (df : list ytd_row) (year last_month : Z) (s : series) :
  get_ytd_for_comparison df year last_month = Some s -> s <> [].
Proof.
  unfold get_ytd_for_comparison.
  destruct (filter _ df); [discriminate|].
  destruct (filter _ _); [discriminate|]. intros [= <-]; discriminate.
Qed.

Lemma option_ext {A : Type} (a b : option A) :
  (forall v, a = Some v <-> b = Some v) -> a = b.
Proof.
  destruct a as [x|], b as [y|]; intros H.
  - now apply H.
  - discriminate (proj1 (H x) eq_refl).
  - discriminate (proj2 (H y) eq_refl).
  - reflexivity.
Qed.

(** ** The sort of [calculate_comparison_statistics] on small inputs *)

Lemma set_nth_middle {A : Type} (l1 l2 : list A) (x w : A) :
  set_nth (l1 ++ x :: l2) (List.length l1) w = l1 ++ w :: l2.
Proof. induction l1 as [|y t IH]; simpl; [reflexivity|now rewrite IH]. Qed.

Lemma buf_set_middle (l1 l2 : list Z) (x w : Z) (n : nat) :
  List.length l1 = n -> buf_set (l1 ++ x :: l2) (Z.of_nat n) w = l1 ++ w :: l2.
Proof. intros <-. unfold buf_set. rewrite Nat2Z.id. apply set_nth_middle. Qed.

Lemma buf_get_middle (l1 l2 : list Z) (x : Z) (n : nat) :
  List.length l1 = n -> buf_get (l1 ++ x :: l2) (Z.of_nat n) = x.
Proof. intros <-. unfold buf_get. rewrite Nat2Z.id. apply nth_middle. Qed.

Lemma take_greater_app {A : Type} (key : A -> Q) (q : Q) (l : list A) :
  l = fst (take_greater key q l) ++ snd (take_greater key q l).
Proof.
  induction l as [|y t IH]; simpl; [reflexivity|].
  destruct (np_less q (key y)); [|reflexivity].
  destruct (take_greater key q t) as [m k]. simpl in *. now rewrite IH at 1.
Qed.

(** The inner [while] loop followed by [*pj = vi]: the elements of the
    prefix greater than [vp] move one place to the right. *)
Lemma insertion_shift_spec (v : list Q) (vp : Q) (rA : list Z) (x : Z) (B : list Z) :
  exists a' pj,
    insertion_shift v vp (rev rA ++ x :: B) 0 (Z.of_nat (List.length rA)) (List.length rA) = (a', pj) /\
    forall w, buf_set a' pj w =
              rev (snd (take_greater (val v) vp rA)) ++ w ::
              rev (fst (take_greater (val v) vp rA)) ++ B.
Proof.
  revert x B. induction rA as [|y t IH]; intros x B.
  - exists (x :: B), 0. split; reflexivity.
  - cbn [insertion_shift List.length].
    replace (rev (y :: t) ++ x :: B) with (rev t ++ y :: x :: B)
      by (simpl; now rewrite <- app_assoc).
    replace (Z.of_nat (S (List.length t)) - 1) with (Z.of_nat (List.length t)) by lia.
    rewrite (buf_get_middle _ _ _ _ (length_rev t)).
    replace (0 <? Z.of_nat (S (List.length t))) with true by (symmetry; apply Z.ltb_lt; lia).
    assert (Ha : buf_set (rev t ++ y :: x :: B) (Z.of_nat (S (List.length t))) y = rev t ++ y :: y :: B).
    { replace (rev t ++ y :: x :: B) with ((rev t ++ [y]) ++ x :: B)
        by now rewrite <- app_assoc.
      rewrite buf_set_middle; [now rewrite <- app_assoc|].
      rewrite length_app, length_rev. simpl. lia. }
    rewrite Ha. cbn [andb take_greater].
    destruct (np_less vp (val v y)) eqn:E.
    + destruct (IH y (y :: B)) as (a' & pj & Hs & Hw). exists a', pj. split; [exact Hs|].
      intros w. rewrite Hw. destruct (take_greater (val v) vp t) as [m k]. simpl.
      now rewrite <- app_assoc.
    + exists (rev t ++ y :: x :: B), (Z.of_nat (S (List.length t))). split; [reflexivity|].
      intros w. cbn [fst snd rev]. rewrite app_nil_l.
      replace (rev t ++ y :: x :: B) with ((rev t ++ [y]) ++ x :: B)
        by now rewrite <- app_assoc.
      apply buf_set_middle. rewrite length_app, length_rev. simpl. lia.
Qed.

Lemma length_ins_right {A : Type} (key : A -> Q) (x : A) (P : list A) :
  List.length (ins_right key x P) = S (List.length P).
Proof.
  unfold ins_right. pose proof (take_greater_app key (key x) (rev P)) as Hs.
  destruct (take_greater key (key x) (rev P)) as [m k]. simpl in Hs.
  apply (f_equal (@List.length A)) in Hs. rewrite length_app, length_rev in Hs.
  rewrite length_app. simpl. rewrite !length_rev. lia.
Qed.

(** The outer loop of [insertion_sort] from position [List.length P]. *)
Lemma insertion_loop_spec (v : list Q) (X P : list Z) :
  insertion_loop v (P ++ X) 0 (Z.of_nat (List.length P)) (List.length X) =
  fold_left (fun acc x => ins_right (val v) x acc) X P.
Proof.
  revert P. induction X as [|x X IH]; intros P.
  - simpl. apply app_nil_r.
  - cbn [insertion_loop List.length fold_left].
    rewrite (buf_get_middle _ _ _ _ eq_refl).
    rewrite Z.sub_0_r, Nat2Z.id.
    destruct (insertion_shift_spec v (val v x) (rev P) x X) as (a' & pj & Hs & Hw).
    rewrite rev_involutive, length_rev in Hs. rewrite Hs, Hw.
    rewrite <- (IH (ins_right (val v) x P)), length_ins_right.
    unfold ins_right. destruct (take_greater (val v) (val v x) (rev P)) as [m k].
    cbn [fst snd]. rewrite <- app_assoc. simpl. f_equal. lia.
Qed.

(** With at most [SMALL_QUICKSORT + 1] values, [aquicksort_] does not
    partition: it is one insertion sort of the whole buffer. *)
Lemma aquicksort_small (v : list Q) :
  (List.length v <= 17)%nat ->
  aquicksort v = fold_left (fun acc x => ins_right (val v) x acc)
                   (map Z.of_nat (seq 0 (List.length v))) [].
Proof.
  intros Hn. destruct v as [|q v']; [reflexivity|].
  unfold aquicksort, npy_get_msb. cbn [aquicksort_loop].
  replace (Z.log2 (Z.of_nat (List.length (q :: v'))) * 2 <? 0) with false
    by (symmetry; apply Z.ltb_ge; pose proof (Z.log2_nonneg (Z.of_nat (List.length (q :: v')))); lia).
  replace (Z.to_nat (Z.of_nat (List.length (q :: v')) - 1 - 0 + 1)) with (S (List.length v'))
    by (simpl List.length; lia).
  cbn [partition_phase].
  replace (16 <? Z.of_nat (List.length (q :: v')) - 1 - 0) with false
    by (symmetry; apply Z.ltb_ge; lia).
  unfold insertion_sort. cbn [List.length seq map].
  replace (Z.to_nat (Z.of_nat (S (List.length v')) - 1 - 0)) with (List.length (map Z.of_nat (seq 1 (List.length v'))))
    by (rewrite length_map, length_seq; lia).
  change (Z.of_nat 0 :: map Z.of_nat (seq 1 (List.length v'))) with ([0] ++ map Z.of_nat (seq 1 (List.length v'))).
  change (0 + 1) with (Z.of_nat (List.length [0])).
  rewrite insertion_loop_spec. reflexivity.
Qed.

Lemma take_greater_map {A B : Type} (k1 : A -> Q) (k2 : B -> Q) (h : A -> B) (q : Q) (l : list A) :
  (forall y, In y l -> k1 y = k2 (h y)) ->
  take_greater k2 q (map h l) = (map h (fst (take_greater k1 q l)), map h (snd (take_greater k1 q l))).
Proof.
  induction l as [|y t IH]; intros Hk; simpl; [reflexivity|].
  rewrite <- (Hk y (or_introl eq_refl)).
  destruct (np_less q (k1 y)); [|reflexivity].
  rewrite IH by (intros z Hz; apply Hk; now right).
  destruct (take_greater k1 q t). reflexivity.
Qed.

Lemma ins_right_map {A B : Type} (k1 : A -> Q) (k2 : B -> Q) (h : A -> B) (x : A) (P : list A) :
  (forall y, y = x \/ In y P -> k1 y = k2 (h y)) ->
  map h (ins_right k1 x P) = ins_right k2 (h x) (map h P).
Proof.
  intros Hk. unfold ins_right. rewrite <- map_rev.
  rewrite (take_greater_map k1 k2 h) by (intros y Hy; apply Hk; right; now apply in_rev).
  rewrite <- (Hk x (or_introl eq_refl)).
  destruct (take_greater k1 (k1 x) (rev P)) as [m k]. simpl.
  now rewrite map_app, map_cons, !map_rev.
Qed.

Lemma ins_right_In {A : Type} (key : A -> Q) (x : A) (P : list A) (y : A) :
  In y (ins_right key x P) -> y = x \/ In y P.
Proof.
  unfold ins_right. pose proof (take_greater_app key (key x) (rev P)) as Hs.
  destruct (take_greater key (key x) (rev P)) as [m k]. simpl in Hs.
  intros Hy. apply in_app_or in Hy as [Hy|[<-|Hy]]; [| now left |];
    right; apply in_rev; rewrite Hs; apply in_or_app; apply in_rev in Hy; tauto.
Qed.

Lemma fold_ins_In {A : Type} (key : A -> Q) (l acc : list A) (y : A) :
  In y (fold_left (fun acc x => ins_right key x acc) l acc) -> In y l \/ In y acc.
Proof.
  revert acc. induction l as [|x l IH]; intros acc Hy; simpl in *; [now right|].
  apply IH in Hy as [Hy|Hy]; [tauto|].
  apply ins_right_In in Hy as [->|Hy]; tauto.
Qed.

Lemma fold_ins_map {A B : Type} (k1 : A -> Q) (k2 : B -> Q) (h : A -> B) (l acc : list A) :
  (forall y, In y l \/ In y acc -> k1 y = k2 (h y)) ->
  map h (fold_left (fun acc x => ins_right k1 x acc) l acc) =
  fold_left (fun acc x => ins_right k2 x acc) (map h l) (map h acc).
Proof.
  revert acc. induction l as [|x l IH]; intros acc Hk; simpl; [reflexivity|].
  rewrite IH.
  - rewrite (ins_right_map k1 k2 h); [reflexivity|].
    intros y [->|Hy]; apply Hk; simpl; tauto.
  - intros y [Hy|Hy]; [apply Hk; simpl; tauto|].
    apply ins_right_In in Hy as [->|Hy]; apply Hk; simpl; tauto.
Qed.

Lemma rev_fold_ins {A : Type} (key : A -> Q) (l acc : list A) :
  rev (fold_left (fun acc x => ins_right key x acc) l acc) =
  fold_left (fun racc x => ins_desc key x racc) l (rev acc).
Proof.
  revert acc. induction l as [|x l IH]; intros acc; simpl; [reflexivity|].
  rewrite IH. f_equal. unfold ins_right, ins_desc.
  destruct (take_greater key (key x) (rev acc)) as [m k].
  rewrite rev_app_distr. simpl. rewrite !rev_involutive. now rewrite <- app_assoc.
Qed.

Lemma insert_desc_stable_Forall (P : comparison_row -> Prop) (x : comparison_row) (l : list comparison_row) :
  P x -> Forall P l -> Forall P (insert_desc_stable x l).
Proof.
  intros Hx Hl. induction Hl as [|y t Hy Ht IH]; simpl; [now constructor|].
  destruct (current_return x), (current_return y); try destruct (Qle_bool _ _);
    repeat constructor; auto.
Qed.

(** On rows with a current return, inserting before the first row whose
    value is not greater is [insert_desc_stable]. *)
Lemma ins_desc_insert (x : comparison_row) (l : list comparison_row) :
  has_current x = true -> Forall (fun r => has_current r = true) l ->
  ins_desc row_key x l = insert_desc_stable x l.
Proof.
  intros Hx Hl. induction Hl as [|y t Hy Ht IH]; [reflexivity|].
  unfold ins_desc in *. cbn [take_greater insert_desc_stable].
  unfold has_current, is_some, row_key, np_less in *.
  destruct (current_return x) as [a|]; [|discriminate].
  destruct (current_return y) as [b|]; [|discriminate].
  destruct (Qle_bool b a); simpl; [reflexivity|].
  destruct (take_greater _ a t) as [m k]. simpl. now rewrite IH.
Qed.

Lemma fold_ins_desc (l : list comparison_row) :
  Forall (fun r => has_current r = true) l ->
  fold_right (fun x acc => ins_desc row_key x acc) [] l = fold_right insert_desc_stable [] l.
Proof.
  induction 1 as [|x t Hx Ht IH]; simpl; [reflexivity|].
  rewrite IH. apply ins_desc_insert; [exact Hx|].
  clear IH. induction Ht; simpl; [constructor|]. now apply insert_desc_stable_Forall.
Qed.

Lemma df_take_app {A : Type} (rows : list A) (l1 l2 : list Z) :
  df_take rows (l1 ++ l2) = df_take rows l1 ++ df_take rows l2.
Proof. apply flat_map_app. Qed.

Lemma df_take_rev {A : Type} (rows : list A) (l : list Z) :
  df_take rows (rev l) = rev (df_take rows l).
Proof.
  induction l as [|k l IH]; [reflexivity|].
  simpl rev. rewrite df_take_app, IH. unfold df_take at 3. simpl flat_map.
  rewrite rev_app_distr. f_equal. simpl.
  destruct (nth_error rows (Z.to_nat k)); reflexivity.
Qed.

Lemma df_take_map {A : Type} (rows : list A) (d : A) (L : list (Z * option Q)) :
  (forall p, In p L -> (Z.to_nat (fst p) < List.length rows)%nat) ->
  df_take rows (map fst L) = map (fun p => nth (Z.to_nat (fst p)) rows d) L.
Proof.
  induction L as [|p L IH]; intros Hv; [reflexivity|].
  simpl. rewrite (nth_error_nth' rows d (Hv p (or_introl eq_refl))).
  simpl. f_equal. apply IH. intros; apply Hv; now right.
Qed.

(** [combine(arange(n), items)] pairs each position with the row at it. *)
Lemma enumerate_In (D rows : list comparison_row) (p : Z * option Q) :
  In p (combine (map Z.of_nat (seq (List.length D) (List.length rows))) (map current_return rows)) ->
  exists r, nth_error (D ++ rows) (Z.to_nat (fst p)) = Some r /\ current_return r = snd p.
Proof.
  revert D. induction rows as [|r t IH]; intros D Hp; [destruct Hp|].
  simpl in Hp. destruct Hp as [<-|Hp].
  - exists r. simpl. rewrite Nat2Z.id, nth_error_app2, Nat.sub_diag by lia. now split.
  - specialize (IH (D ++ [r])).
    replace (List.length (D ++ [r])) with (S (List.length D)) in IH
      by (rewrite length_app; simpl; lia).
    rewrite <- app_assoc in IH. now apply IH.
Qed.

Lemma enumerate_take (D rows : list comparison_row) (g : option Q -> bool) :
  df_take (D ++ rows)
    (map fst (filter (fun p => g (snd p))
       (combine (map Z.of_nat (seq (List.length D) (List.length rows))) (map current_return rows))))
  = filter (fun r => g (current_return r)) rows.
Proof.
  revert D. induction rows as [|r t IH]; intros D; [reflexivity|].
  cbn [List.length seq map combine filter snd].
  specialize (IH (D ++ [r])).
  replace (List.length (D ++ [r])) with (S (List.length D)) in IH
    by (rewrite length_app; simpl; lia).
  rewrite <- app_assoc in IH. change ([r] ++ t) with (r :: t) in IH.
  destruct (g (current_return r)); [|exact IH].
  cbn [map fst]. change (Z.of_nat (List.length D) :: ?l) with ([Z.of_nat (List.length D)] ++ l).
  rewrite df_take_app, IH. unfold df_take at 1. cbn [flat_map].
  rewrite Nat2Z.id, nth_error_app2, Nat.sub_diag by lia. reflexivity.
Qed.

Lemma flat_map_some (L : list (Z * option Q)) :
  flat_map (fun p => match snd p with Some x => [x] | None => [] end)
    (filter (fun p => is_some (snd p)) L)
  = map pair_key (filter (fun p => is_some (snd p)) L).
Proof.
  induction L as [|[k [x|]] L IH]; simpl; [reflexivity| |exact IH].
  now rewrite IH.
Qed.

Lemma map_nth_seq0 {A : Type} (l : list A) (d : A) :
  map (fun k => nth (Z.to_nat k) l d) (map Z.of_nat (seq 0 (List.length l))) = l.
Proof.
  rewrite map_map.
  assert (H : forall D, map (fun i => nth (Z.to_nat (Z.of_nat i)) (D ++ l) d)
                          (seq (List.length D) (List.length l)) = l).
  { induction l as [|x t IH]; intros D; [reflexivity|].
    simpl. rewrite Nat2Z.id, nth_middle. f_equal.
    specialize (IH (D ++ [x])).
    replace (List.length (D ++ [x])) with (S (List.length D)) in IH
      by (rewrite length_app; simpl; lia).
    rewrite <- app_assoc in IH. exact IH. }
  exact (H []).
Qed.

(** For a frame of at most 17 non-null current returns, [sort_values]
    as numpy runs it is the stable descending order with the nulls last. *)
Lemma sort_values_small (rows : list comparison_row) :
  (List.length (filter has_current rows) <= 17)%nat ->
  df_take rows (nargsort_desc (map current_return rows)) = spec_stable_sort_desc rows.
Proof.
  intros Hn. unfold nargsort_desc. rewrite length_map, flat_map_some.
  set (pairs := combine (map Z.of_nat (seq 0 (List.length rows))) (map current_return rows)).
  set (non_nan := filter (fun p => is_some (snd p)) pairs).
  set (h1 := fun p : Z * option Q => nth (Z.to_nat (fst p)) rows no_row).
  assert (Hpair : forall p, In p pairs ->
            (Z.to_nat (fst p) < List.length rows)%nat /\ h1 p = nth (Z.to_nat (fst p)) rows no_row /\
            current_return (h1 p) = snd p).
  { intros p Hp. destruct (enumerate_In [] rows p Hp) as (r & Hr & Hc).
    simpl in Hr. assert (Hl : (Z.to_nat (fst p) < List.length rows)%nat)
      by (apply nth_error_Some; congruence).
    split; [exact Hl|split; [reflexivity|]].
    unfold h1. now rewrite (nth_error_nth rows (Z.to_nat (fst p)) no_row Hr). }
  assert (Hnn : map h1 non_nan = filter has_current rows).
  { rewrite <- (df_take_map rows no_row).
    - exact (enumerate_take [] rows is_some).
    - intros p Hp. apply filter_In in Hp. now apply Hpair. }
  assert (Hlen : (List.length (rev (map pair_key non_nan)) <= 17)%nat).
  { rewrite length_rev, length_map, <- (length_map h1), Hnn. exact Hn. }
  rewrite (aquicksort_small _ Hlen).
  rewrite <- (map_rev pair_key non_nan).
  set (W := rev non_nan).
  set (h0 := fun k : Z => nth (Z.to_nat k) W (0, None)).
  assert (Hidx : map (fun k => nth (Z.to_nat k) (rev (map fst non_nan)) 0)
                   (fold_left (fun acc x => ins_right (val (map pair_key W)) x acc)
                      (map Z.of_nat (seq 0 (List.length (map pair_key W)))) [])
                 = map fst (fold_left (fun acc x => ins_right pair_key x acc) W [])).
  { rewrite <- map_rev. fold W.
    transitivity (map fst (map h0 (fold_left (fun acc x => ins_right (val (map pair_key W)) x acc)
                      (map Z.of_nat (seq 0 (List.length (map pair_key W)))) []))).
    { rewrite map_map. apply map_ext. intros k. unfold h0.
      now rewrite <- (map_nth fst W (0, None)). }
    f_equal. rewrite (fold_ins_map _ pair_key h0).
    - rewrite length_map. unfold h0. rewrite map_nth_seq0. reflexivity.
    - intros y _. unfold val, h0. now rewrite <- (map_nth pair_key W (0, None)). }
  rewrite Hidx, df_take_app, df_take_rev.
  rewrite (df_take_map rows no_row).
  2:{ intros p Hp. apply fold_ins_In in Hp as [Hp|[]].
      apply in_rev, filter_In in Hp. now apply Hpair. }
  fold h1. unfold spec_stable_sort_desc. f_equal.
  2:{ exact (enumerate_take [] rows (fun o => negb (is_some o))). }
  rewrite (fold_ins_map pair_key row_key h1).
  2:{ intros y [Hy|[]]. apply in_rev, filter_In in Hy. destruct Hy as [Hy _].
      unfold pair_key, row_key. now rewrite (proj2 (proj2 (Hpair y Hy))). }
  unfold W. rewrite map_rev, Hnn, rev_fold_ins. simpl rev.
  rewrite <- (fold_left_rev_right (fun x racc => ins_desc row_key x racc)), rev_involutive. apply fold_ins_desc.
  apply Forall_forall. intros r Hr. now apply filter_In in Hr.
Qed.

Lemma insert_desc_stable_Permutation (x : comparison_row) (l : list comparison_row) :
  Permutation (insert_desc_stable x l) (x :: l).
Proof.
  induction l as [|y t IH]; simpl; [reflexivity|].
  destruct (current_return x), (current_return y); try destruct (Qle_bool _ _);
    try reflexivity.
  eapply perm_trans; [apply perm_skip, IH|apply perm_swap].
Qed.

Lemma insert_desc_stable_head (x : comparison_row) (l : list comparison_row) :
  insert_desc_stable x l = x :: l \/
  exists z t, l = z :: t /\ insert_desc_stable x l = z :: insert_desc_stable x t.
Proof.
  destruct l as [|y t]; simpl; [now left|].
  destruct (current_return x), (current_return y); try destruct (Qle_bool _ _); eauto.
Qed.

Lemma insert_desc_stable_Sorted (x : comparison_row) (l : list comparison_row) :
  has_current x = true -> Forall (fun r => has_current r = true) l ->
  Sorted desc_current l -> Sorted desc_current (insert_desc_stable x l).
Proof.
  intros Hx Hall Hs. induction Hs as [|y t Ht IH Hhd]; simpl; [repeat constructor|].
  inversion Hall as [|? ? Hy Ht']; subst.
  unfold has_current, is_some in Hx, Hy.
  destruct (current_return x) as [a|] eqn:Ea; [|discriminate].
  destruct (current_return y) as [b|] eqn:Eb; [|discriminate].
  destruct (Qle_bool b a) eqn:Eq.
  - constructor; [now constructor|]. constructor. unfold desc_current.
    rewrite Ea, Eb. now apply Qle_bool_iff.
  - constructor; [now apply IH|].
    destruct (insert_desc_stable_head x t) as [->|[z [t' [-> ->]]]].
    + constructor. unfold desc_current. rewrite Ea, Eb.
      apply Qlt_le_weak, Qnot_le_lt. intros Hle. apply Qle_bool_iff in Hle. congruence.
    + inversion Hhd; subst. now constructor.
Qed.

(** For at most 17 non-null current returns, the table numpy gives is one
    of the orders of [calculate_comparison_statistics]. *)
Lemma comparison_statistics_np_small
    (comparison_data : list (string * (option series * option series)))
    (out : list comparison_row) :
  calculate_comparison_statistics_np comparison_data = Ok out ->
  (List.length (filter has_current (comparison_rows comparison_data)) <= 17)%nat ->
  calculate_comparison_statistics comparison_data out.
Proof.
  intros Hc Hn. destruct comparison_data as [|d ds]; [discriminate|].
  assert (Ho : out = df_take (comparison_rows (d :: ds))
                      (nargsort_desc (map current_return (comparison_rows (d :: ds)))))
    by (injection Hc; intros H; symmetry; exact H).
  rewrite Ho, (sort_values_small _ Hn).
  split; [discriminate|].
  set (rows := comparison_rows (d :: ds)).
  assert (Hall : Forall (fun r => has_current r = true) (filter has_current rows))
    by (apply Forall_forall; intros r Hr; now apply filter_In in Hr).
  exists (fold_right insert_desc_stable [] (filter has_current rows)).
  split; [|split; [|reflexivity]].
  - induction (filter has_current rows) as [|x t IH]; simpl; [reflexivity|].
    inversion Hall; subst. rewrite insert_desc_stable_Permutation. auto.
  - induction Hall as [|x t Hx Ht IH]; simpl; [constructor|].
    apply insert_desc_stable_Sorted; [exact Hx| |exact IH].
    clear IH. induction Ht; simpl; [constructor|]. now apply insert_desc_stable_Forall.
Qed.

(** ** C6 *)





(** Example of the spec (sec. 8): A (0.05, 0.02) and B (-0.03, 0.01); the
    only table the code can produce is [A (diff 0.03); B (diff -0.04)]. *)
Example comparison_scenario_AB :
  forall out,
    calculate_comparison_statistics
      [("A"%string, (Some [(1, 5 # 100)], Some [(1, 2 # 100)]));
       ("B"%string, (Some [(1, -3 # 100)], Some [(1, 1 # 100)]))] out ->
    out = [mkCRow "A" (Some (5 # 100)) (Some (2 # 100)) (Some ((5 # 100) - (2 # 100))%Q);
           mkCRow "B" (Some (-3 # 100)) (Some (1 # 100)) (Some ((-3 # 100) - (1 # 100))%Q)].
Proof.
  intros out [_ [nn [Hp [Hs ->]]]]. simpl in Hp |- *. rewrite app_nil_r.
  apply Permutation_sym, Permutation_length_2_inv in Hp as [ -> | -> ]; [reflexivity|].
  exfalso. inversion Hs as [|? ? _ Hhd]; subst. inversion Hhd as [|? ? Hd]; subst.
  vm_compute in Hd. exact (Hd eq_refl).
Qed.

(** ** C7 *)

Lemma In_comparison_rows (data : list (string * (option series * option series)))
    (r : comparison_row) :
  In r (comparison_rows data) <->
  exists t cs ps, In (t, (cs, ps)) data /\
    r = mkCRow t (iloc_last cs) (iloc_last ps)
          (match iloc_last cs, iloc_last ps with
           | Some c, Some p => Some (c - p)%Q
           | _, _ => None
           end).
Proof.
  unfold comparison_rows. rewrite in_map_iff. split.
  - intros [[t [cs ps]] [<- Hin]]. eauto.
  - intros [t [cs [ps [Hin ->]]]]. exists (t, (cs, ps)). auto.
Qed.

Lemma In_prepare_comparison_data (all : list (string * list ytd_row)) (cy py lm : Z)
    t cs ps :
  In (t, (cs, ps)) (prepare_comparison_data all cy py lm) <->
  exists df, In (t, df) all /\
    cs = get_ytd_for_comparison df cy lm /\ ps = get_ytd_for_comparison df py lm /\
    (cs <> None \/ ps <> None).
Proof.
  unfold prepare_comparison_data. rewrite in_flat_map. split.
  - intros [[t' df] [Hin Hx]].
    destruct (is_some (get_ytd_for_comparison df cy lm) ||
              is_some (get_ytd_for_comparison df py lm)) eqn:E; [|contradiction].
    destruct Hx as [Hx|[]]. inversion Hx; subst.
    exists df. repeat split; [exact Hin|].
    apply orb_true_iff in E as [E|E]; [left|right]; intros Hn; rewrite Hn in E; discriminate.
  - intros [df [Hin [-> [-> Hne]]]]. exists (t, df). split; [exact Hin|].
    replace (is_some _ || is_some _) with true; [now left|].
    destruct Hne as [Hne|Hne]; destruct (get_ytd_for_comparison df cy lm);
      destruct (get_ytd_for_comparison df py lm); simpl; congruence.
Qed.

(** C7: a row of the comparison table belongs to a ticker of the input one
    of whose truncated series (current or prior) is non-empty, and every
    such ticker has its row; the row's returns are the last values of the
    truncated series (null when the series is absent), and its difference is
    their difference, null when either is null. *)
Theorem comparison_rows_spec (all_ytd_data : list (string * list ytd_row))
    (current_year prior_year last_month : Z) (out : list comparison_row) :
  calculate_comparison_statistics
    (prepare_comparison_data all_ytd_data current_year prior_year last_month) out ->
  forall r, In r out <->
    exists df, In (c_ticker r, df) all_ytd_data /\
      let cs := get_ytd_for_comparison df current_year last_month in
      let ps := get_ytd_for_comparison df prior_year last_month in
      ((exists s, cs = Some s /\ s <> []) \/ (exists s, ps = Some s /\ s <> [])) /\
      (forall v, current_return r = Some v <-> exists pre m, cs = Some (pre ++ [(m, v)])) /\
      (forall v, prior_return r = Some v <-> exists pre m, ps = Some (pre ++ [(m, v)])) /\
      difference r = match current_return r, prior_return r with
                     | Some c, Some p => Some (c - p)%Q
                     | _, _ => None
                     end.
Proof.
  intros Hs r. split.
  - intros Hin. apply (Permutation_in _ (sort_values_Permutation _ _ (proj2 Hs))) in Hin.
    apply In_comparison_rows in Hin as [t [cs [ps [Hin ->]]]].
    apply In_prepare_comparison_data in Hin as [df [Hin [-> [-> Hne]]]].
    exists df. simpl. split; [exact Hin|]. split; [|split; [|split]].
    + destruct Hne as [Hne|Hne]; [left|right];
        destruct (get_ytd_for_comparison df _ last_month) as [s|] eqn:E; try congruence;
        exists s; split; [reflexivity| |reflexivity|];
        exact (get_ytd_for_comparison_nonempty _ _ _ _ E).
    + intros v. destruct (get_ytd_for_comparison df current_year last_month) as [s|].
      * rewrite iloc_last_Some.
        split; [intros [pre [m ->]]; eauto|intros [pre [m [= ->]]]; eauto].
      * split; [discriminate|]. intros [pre [m H]]; discriminate.
    + intros v. destruct (get_ytd_for_comparison df prior_year last_month) as [s|].
      * rewrite iloc_last_Some.
        split; [intros [pre [m ->]]; eauto|intros [pre [m [= ->]]]; eauto].
      * split; [discriminate|]. intros [pre [m H]]; discriminate.
    + reflexivity.
  - intros [df [Hin [Hne [Hc [Hp Hd]]]]].
    apply (Permutation_in _ (Permutation_sym (sort_values_Permutation _ _ (proj2 Hs)))).
    apply In_comparison_rows.
    set (cs := get_ytd_for_comparison df current_year last_month) in *.
    set (ps := get_ytd_for_comparison df prior_year last_month) in *.
    assert (Ec : current_return r = iloc_last cs).
    { apply option_ext. intros v. rewrite Hc. symmetry. apply iloc_last_spec. }
    assert (Ep : prior_return r = iloc_last ps).
    { apply option_ext. intros v. rewrite Hp. symmetry. apply iloc_last_spec. }
    exists (c_ticker r), cs, ps. split.
    + apply In_prepare_comparison_data. exists df. repeat split; [exact Hin|].
      destruct Hne as [[s [Hs' _]]|[s [Hs' _]]]; [left|right]; congruence.
    + destruct r as [t c p d]. simpl in *. subst. reflexivity.
Qed.


Lemma comparison_rows_spec_witness :
  calculate_comparison_statistics (prepare_comparison_data c7_tables 2026 2025 2)
    (comparison_rows (prepare_comparison_data c7_tables 2026 2025 2)) /\
  (In (mkCRow "A" (Some (2 # 100)) (Some (1 # 100)) (Some ((2 # 100) - (1 # 100))%Q))
      (comparison_rows (prepare_comparison_data c7_tables 2026 2025 2)) <->
   exists df, In ("A"%string, df) c7_tables /\
      let cs := get_ytd_for_comparison df 2026 2 in
      let ps := get_ytd_for_comparison df 2025 2 in
      ((exists s, cs = Some s /\ s <> []) \/ (exists s, ps = Some s /\ s <> [])) /\
      (forall v, Some (2 # 100) = Some v <-> exists pre m, cs = Some (pre ++ [(m, v)])) /\
      (forall v, Some (1 # 100) = Some v <-> exists pre m, ps = Some (pre ++ [(m, v)])) /\
      Some ((2 # 100) - (1 # 100))%Q =
        match Some (2 # 100), Some (1 # 100) with
        | Some c, Some p => Some (c - p)%Q
        | _, _ => None
        end).
Proof.
  assert (Hs : calculate_comparison_statistics (prepare_comparison_data c7_tables 2026 2025 2)
                 (comparison_rows (prepare_comparison_data c7_tables 2026 2025 2))).
  { split; [intros Hn; vm_compute in Hn; discriminate Hn|].
    exists (comparison_rows (prepare_comparison_data c7_tables 2026 2025 2)).
    split; [|split].
    - simpl. apply Permutation_refl.
    - repeat constructor.
    - reflexivity. }
  split; [exact Hs|].
  exact (comparison_rows_spec c7_tables 2026 2025 2 _ Hs
           (mkCRow "A" (Some (2 # 100)) (Some (1 # 100)) (Some ((2 # 100) - (1 # 100))%Q))).
Defined.

(** ** Lemmas on the summary statistics *)

Lemma get_summary_statistics_fields (sqrtQ : Q -> Q) (ytd : ytd_dict) (hy lm : Z)
    (st : summary) :
  get_summary_statistics sqrtQ ytd hy lm = Ok st ->
  calculate_historical_average sqrtQ ytd (if lm <? 12 then Some hy else None) =
    Ok (avg_full_year_ytd st, std_full_year_ytd st, n_years st) /\
  best_year st = option_map fst (py_max_by_value (year_end_returns ytd)) /\
  best_return st = option_map snd (py_max_by_value (year_end_returns ytd)) /\
  worst_year st = option_map fst (py_min_by_value (year_end_returns ytd)) /\
  worst_return st = option_map snd (py_min_by_value (year_end_returns ytd)).
Proof.
  unfold get_summary_statistics. destruct (py_min _); [|discriminate].
  destruct (calculate_historical_average _ _ _) as [[[avg std] n]|e] eqn:E; [|discriminate].
  destruct (existsb _ _); [discriminate|].
  intros [= <-]. simpl. repeat split.
Qed.

(** A summary is produced only when no series repeats the label 12. *)
Lemma get_summary_statistics_no_dup12 (sqrtQ : Q -> Q) (ytd : ytd_dict) (hy lm : Z)
    (st : summary) :
  get_summary_statistics sqrtQ ytd hy lm = Ok st ->
  existsb (fun p => dup12 (snd p)) ytd = false.
Proof.
  unfold get_summary_statistics. destruct (py_min _); [|discriminate].
  destruct (calculate_historical_average _ _ _) as [[[avg std] n]|e]; [|discriminate].
  now destruct (existsb _ _).
Qed.

Lemma existsb_filter_false {A : Type} (f g : A -> bool) (l : list A) :
  existsb f l = false -> existsb f (filter g l) = false.
Proof.
  induction l as [|x l IH]; simpl; [reflexivity|].
  intros H. apply orb_false_iff in H as [Hx Hl].
  destruct (g x); simpl; [rewrite Hx|]; now apply IH.
Qed.

(** [calculate_historical_average] raises only [ValueError], and only on a
    series that repeats the label 12. *)
Lemma calculate_historical_average_raise (sqrtQ : Q -> Q) (ytd : ytd_dict)
    (exclude_year : option Z) (e : py_exc) :
  calculate_historical_average sqrtQ ytd exclude_year = Raise e -> e = ValueError.
Proof.
  unfold calculate_historical_average. destruct (existsb _ _); congruence.
Qed.

Lemma calculate_historical_average_ok (sqrtQ : Q -> Q) (ytd : ytd_dict)
    (exclude_year : option Z) :
  existsb (fun p => dup12 (snd p)) ytd = false ->
  exists r, calculate_historical_average sqrtQ ytd exclude_year = Ok r.
Proof.
  intros Hd. unfold calculate_historical_average.
  rewrite (existsb_filter_false _ _ _ Hd). eauto.
Qed.

(** The list of December values kept by [calculate_historical_average]. *)
Lemma historical_pool_eq (ytd : ytd_dict) (exclude_year : option Z) :
  flat_map (fun o => match o with Some r => [r] | None => [] end)
    (map (fun p => assoc 12 (snd p))
       (filter (fun p => match exclude_year with
                         | Some e => negb (Z.eqb (fst p) e)
                         | None => true
                         end) ytd)) =
  flat_map (fun '(y, s) =>
              match assoc 12 s with
              | Some v => if match exclude_year with Some e => Z.eqb y e | None => false end
                          then [] else [v]
              | None => []
              end) ytd.
Proof.
  induction ytd as [|[y s] t IH]; [reflexivity|]. simpl.
  destruct exclude_year as [e|]; simpl;
    [destruct (Z.eqb y e)|]; simpl; destruct (assoc 12 s); simpl; rewrite IH; reflexivity.
Qed.

(** ** C8 *)

(** C8: the pool of the historical average and deviation holds the
    December values of the years that have one, except the highlighted year
    when its last month is before December; [n_years] is its size, the
    average is its mean (null when empty) and the deviation is the sample
    standard deviation ([ddof=1]), null unless the pool has at least two
    values. *)
Theorem summary_historical_pool (sqrtQ : Q -> Q) (ytd_by_year : ytd_dict)
    (highlight_year last_month_highlight : Z) (st : summary) :
  get_summary_statistics sqrtQ ytd_by_year highlight_year last_month_highlight = Ok st ->
  let pool :=
    flat_map (fun '(y, s) =>
                match assoc 12 s with
                | Some v => if (y =? highlight_year) && (last_month_highlight <? 12)
                            then [] else [v]
                | None => []
                end) ytd_by_year in
  let n := List.length pool in
  let mean := (sumQ pool / inject_Z (Z.of_nat n))%Q in
  n_years st = n /\
  avg_full_year_ytd st = (if Nat.eqb n 0 then None else Some mean) /\
  std_full_year_ytd st =
    (if Nat.leb 2 n
     then Some (sqrtQ (sumQ (map (fun x => (x - mean) ^ 2)%Q pool)
                       / inject_Z (Z.of_nat n - 1))%Q)
     else None).
Proof.
  intros Hs pool n mean.
  apply get_summary_statistics_fields in Hs as [Hh _].
  unfold calculate_historical_average in Hh.
  destruct (existsb _ _) in Hh; [discriminate|]. rewrite historical_pool_eq in Hh.
  match type of Hh with
  | Ok (_, _, List.length ?p) = _ => assert (Hp : p = pool); [|rewrite Hp in Hh]
  end.
  { unfold pool. apply flat_map_ext. intros [y s]. destruct (assoc 12 s); [|reflexivity].
    destruct (last_month_highlight <? 12); simpl;
      [now rewrite andb_true_r|now rewrite andb_false_r]. }
  unfold mean, n. clear mean n Hp. clearbody pool.
  inversion Hh as [[Ha Hsd Hn]]. split; [reflexivity|]. split.
  - destruct pool; reflexivity.
  - unfold np_std_ddof1, np_mean. destruct pool as [|x [|x' t]]; reflexivity.
Qed.

Lemma summary_historical_pool_witness :
  get_summary_statistics (fun x => x)
    [(2023, [(1, 1 # 10); (12, 2 # 10)]); (2024, [(1, 3 # 10); (12, 1 # 10)]);
     (2025, [(1, 1 # 10); (2, 5 # 10)])] 2025 2
  = Ok (mkSummary 2023 2025 2 (Some (np_mean [2 # 10; 1 # 10]))
          (Some (np_std_ddof1 (fun x => x) [2 # 10; 1 # 10])) 2
          (Some 2023) (Some (2 # 10)) (Some 2024) (Some (1 # 10)) (Some (5 # 10))) /\
  n_years (mkSummary 2023 2025 2 (Some (np_mean [2 # 10; 1 # 10]))
          (Some (np_std_ddof1 (fun x => x) [2 # 10; 1 # 10])) 2
          (Some 2023) (Some (2 # 10)) (Some 2024) (Some (1 # 10)) (Some (5 # 10))) = 2%nat.
Proof.
  assert (H : get_summary_statistics (fun x => x)
    [(2023, [(1, 1 # 10); (12, 2 # 10)]); (2024, [(1, 3 # 10); (12, 1 # 10)]);
     (2025, [(1, 1 # 10); (2, 5 # 10)])] 2025 2
  = Ok (mkSummary 2023 2025 2 (Some (np_mean [2 # 10; 1 # 10]))
          (Some (np_std_ddof1 (fun x => x) [2 # 10; 1 # 10])) 2
          (Some 2023) (Some (2 # 10)) (Some 2024) (Some (1 # 10)) (Some (5 # 10))))
    by reflexivity.
  split; [exact H|].
  exact (proj1 (summary_historical_pool (fun x => x) _ 2025 2 _ H)).
Defined.

(** ** Lemmas on the best and worst years *)


Lemma insert_uniq_In (x y : Z) (l : list Z) :
  In y (insert_uniq x l) <-> y = x \/ In y l.
Proof.
  induction l as [|z t IH]; simpl; [intuition congruence|].
  destruct (Z.ltb_spec x z); [simpl; intuition congruence|].
  destruct (Z.eqb_spec x z); [subst; simpl; intuition congruence|].
  simpl. rewrite IH. intuition congruence.
Qed.

Lemma insert_uniq_sorted (x : Z) (l : list Z) :
  StronglySorted Z.lt l -> StronglySorted Z.lt (insert_uniq x l).
Proof.
  induction l as [|z t IH]; simpl; intros H; [repeat constructor|].
  inversion H as [|? ? Ht Hf]; subst.
  destruct (Z.ltb_spec x z).
  - constructor; [exact H|]. constructor; [exact H0|].
    eapply Forall_impl; [|exact Hf]. intros a Ha; simpl in Ha; lia.
  - destruct (Z.eqb_spec x z); [exact H|].
    constructor; [now apply IH|]. apply Forall_forall. intros a Ha.
    apply insert_uniq_In in Ha as [->|Ha]; [lia|]. now apply (proj1 (Forall_forall _ _) Hf).
Qed.

Lemma sorted_unique_sorted (l : list Z) : StronglySorted Z.lt (sorted_unique l).
Proof.
  induction l as [|x t IH]; simpl; [constructor|]. now apply insert_uniq_sorted.
Qed.

Lemma StronglySorted_map_keys {V : Type} (f : Z -> V) (l : list Z) :
  StronglySorted Z.lt l -> StronglySorted key_lt (map (fun y => (y, f y)) l).
Proof.
  induction l as [|x t IH]; simpl; intros H; [constructor|].
  inversion H as [|? ? Ht Hf]; subst. constructor; [now apply IH|].
  apply Forall_map. eapply Forall_impl; [|exact Hf]. intros a Ha. exact Ha.
Qed.

Lemma StronglySorted_key_NoDup {V : Type} (l : list (Z * V)) :
  StronglySorted key_lt l -> NoDup (map fst l).
Proof.
  induction l as [|[k v] t IH]; simpl; intros H; [constructor|].
  inversion H as [|? ? Ht Hf]; subst. constructor; [|now apply IH].
  intros Hin. apply in_map_iff in Hin as [[k' v'] [Hk Hin]]. simpl in Hk; subst.
  apply (proj1 (Forall_forall _ _) Hf) in Hin. unfold key_lt in Hin; simpl in Hin. lia.
Qed.

Lemma In_year_end_returns (ytd : ytd_dict) (y : Z) (v : Q) :
  In (y, v) (year_end_returns ytd) <-> exists s, In (y, s) ytd /\ assoc 12 s = Some v.
Proof.
  unfold year_end_returns. rewrite in_flat_map. split.
  - intros [[y' s] [Hin Hx]]. destruct (assoc 12 s) eqn:E; [|contradiction].
    destruct Hx as [Hx|[]]. inversion Hx; subst. eauto.
  - intros [s [Hin Hs]]. exists (y, s). rewrite Hs. simpl; auto.
Qed.

Lemma year_end_returns_sorted (ytd : ytd_dict) :
  StronglySorted key_lt ytd -> StronglySorted key_lt (year_end_returns ytd).
Proof.
  induction ytd as [|[y s] t IH]; simpl; intros H; [constructor|].
  inversion H as [|? ? Ht Hf]; subst.
  destruct (assoc 12 s); simpl; [|now apply IH].
  constructor; [now apply IH|]. apply Forall_forall. intros [y' v'] Hin.
  apply In_year_end_returns in Hin as [s' [Hin _]].
  exact (proj1 (Forall_forall _ _) Hf _ Hin).
Qed.

Lemma december_value_spec (ytd : ytd_dict) (y : Z) (v : Q) :
  StronglySorted key_lt ytd ->
  december_value ytd y = Some v <-> In (y, v) (year_end_returns ytd).
Proof.
  intros H. rewrite In_year_end_returns. unfold december_value. split.
  - destruct (assoc y ytd) as [s|] eqn:E; [|discriminate]. intros Hv.
    exists s. split; [now apply assoc_In|exact Hv].
  - intros [s [Hin Hv]]. destruct (In_assoc _ _ _ Hin) as [s' E].
    rewrite E. rewrite (NoDup_keys_functional ytd y s' s); [exact Hv| | |exact Hin].
    + now apply StronglySorted_key_NoDup.
    + now apply assoc_In.
Qed.

Lemma StronglySorted_app_rel {A : Type} (R : A -> A -> Prop) (l1 l2 : list A) :
  StronglySorted R (l1 ++ l2) -> forall a b, In a l1 -> In b l2 -> R a b.
Proof.
  induction l1 as [|x t IH]; simpl; intros H a b Ha Hb; [contradiction|].
  inversion H as [|? ? Ht Hf]; subst. destruct Ha as [->|Ha].
  - apply (proj1 (Forall_forall _ _) Hf). apply in_or_app; now right.
  - now apply IH.
Qed.

Section KeepFirstBest.

(** [le a b]: [a] does not beat [b]; an item replaces the current best only
    when it beats it. *)
Variable le : Q -> Q -> bool.
Hypothesis le_total : forall a b, le a b = false -> le b a = true.
Hypothesis le_trans : forall a b c, le a b = true -> le b c = true -> le a c = true.


Lemma fold_keep_best (t P : list (Z * Q)) (acc : Z * Q) :
  StronglySorted key_lt (P ++ t) -> best_of le P acc ->
  best_of le (P ++ t) (fold_left (keep_best le) t acc).
Proof.
  revert P acc. induction t as [|k t IH]; intros P acc Hs Hb.
  - now rewrite app_nil_r.
  - simpl. replace (P ++ k :: t) with ((P ++ [k]) ++ t) in * by now rewrite <- app_assoc.
    apply IH; [exact Hs|].
    destruct Hb as [Hin [Hle Htie]].
    assert (Hlt : fst acc < fst k).
    { assert (Hs' : StronglySorted key_lt (P ++ k :: t))
        by (rewrite <- app_assoc in Hs; exact Hs).
      exact (StronglySorted_app_rel key_lt P (k :: t) Hs' acc k Hin (or_introl eq_refl)). }
    unfold keep_best. destruct (le (snd k) (snd acc)) eqn:E; repeat split.
    + apply in_or_app; now left.
    + intros x Hx. apply in_app_or in Hx as [Hx|[<-|[]]]; [now apply Hle|exact E].
    + intros x Hx Hx'. apply in_app_or in Hx as [Hx|[<-|[]]]; [now apply Htie|lia].
    + apply in_or_app; right; now left.
    + intros x Hx. apply in_app_or in Hx as [Hx|[Hx|[]]].
      * apply le_trans with (snd acc); [now apply Hle|now apply le_total].
      * subst x. destruct (le (snd k) (snd k)) eqn:E'; [reflexivity|].
        pose proof (le_total _ _ E'). congruence.
    + intros x Hx Hx'. apply in_app_or in Hx as [Hx|[<-|[]]]; [|lia].
      exfalso. assert (le (snd k) (snd acc) = true) by
        (apply le_trans with (snd x); [exact Hx'|now apply Hle]).
      congruence.
Qed.

Lemma keep_best_first (l : list (Z * Q)) :
  StronglySorted key_lt l -> l <> [] ->
  match l with
  | [] => True
  | k :: t => best_of le l (fold_left (keep_best le) t k)
  end.
Proof.
  destruct l as [|k t]; intros Hs Hne; [contradiction|].
  apply (fold_keep_best t [k] k Hs). repeat split.
  - now left.
  - intros x [Hx|[]]. subst x. destruct (le (snd k) (snd k)) eqn:E; [reflexivity|].
    pose proof (le_total _ _ E). congruence.
  - intros x [<-|[]] _. lia.
Qed.

End KeepFirstBest.

Lemma prepare_ytd_series_dict (df : list ytd_row) (current_year : Z) ytd hy lm :
  prepare_ytd_series df current_year = Ok (ytd, hy, lm) ->
  ytd = map (fun y => (y, year_series df y)) (sorted_unique (map r_year df)).
Proof.
  unfold prepare_ytd_series.
  destruct (filter _ df) as [|r t].
  - destruct (py_max _); [|discriminate]. destruct (py_max _); [|discriminate].
    congruence.
  - destruct (py_max _); [|discriminate]. congruence.
Qed.

Lemma Qle_bool_total (a b : Q) : Qle_bool a b = false -> Qle_bool b a = true.
Proof.
  intros H. apply Qle_bool_iff. destruct (Qlt_le_dec b a) as [Hlt|Hle].
  - now apply Qlt_le_weak.
  - apply Qle_bool_iff in Hle. congruence.
Qed.

Lemma Qle_bool_trans (a b c : Q) :
  Qle_bool a b = true -> Qle_bool b c = true -> Qle_bool a c = true.
Proof.
  rewrite !Qle_bool_iff. apply Qle_trans.
Qed.

Lemma sorted_unique_In (l : list Z) (y : Z) : In y (sorted_unique l) <-> In y l.
Proof.
  induction l as [|x t IH]; simpl; [reflexivity|].
  rewrite insert_uniq_In, IH. intuition congruence.
Qed.

Lemma assoc_map_keys {V : Type} (f : Z -> V) (l : list Z) (k : Z) :
  In k l -> assoc k (map (fun y => (y, f y)) l) = Some (f k).
Proof.
  induction l as [|x t IH]; simpl; [contradiction|].
  destruct (Z.eqb_spec k x) as [->|Hne]; [reflexivity|].
  intros [->|H]; [contradiction|now apply IH].
Qed.

Lemma filter_NoDup_count {A : Type} (f : A -> Z) (l : list A) (y : Z) :
  NoDup (map f l) -> (List.length (filter (fun x => Z.eqb (f x) y) l) <= 1)%nat.
Proof.
  induction l as [|x t IH]; simpl; [lia|]. intros Hnd. inversion Hnd as [|? ? Hx Ht]; subst.
  destruct (Z.eqb_spec (f x) y) as [<-|]; simpl; [|now apply IH].
  assert (H0 : filter (fun z => f z =? f x) t = []).
  { destruct (filter (fun z => f z =? f x) t) as [|z u] eqn:E; [reflexivity|].
    exfalso. assert (Hz : In z (filter (fun z => f z =? f x) t)) by (rewrite E; now left).
    apply filter_In in Hz as [Hz Hfz]. apply Z.eqb_eq in Hfz.
    apply Hx, in_map_iff. eauto. }
  rewrite H0. simpl. lia.
Qed.

(** When no two December rows share a year, no series of the dict repeats
    the label 12. *)
Lemma year_series_no_dup12 (df : list ytd_row) (y : Z) :
  NoDup (map r_year (filter (fun r => r_month r =? 12) df)) ->
  dup12 (year_series df y) = false.
Proof.
  intros Hnd. unfold dup12, year_series.
  assert (Hl : List.length (filter (fun p => fst p =? 12)
                 (map (fun r => (r_month r, r_ytd r)) (filter (fun r => r_year r =? y) df))) =
               List.length (filter (fun r => r_year r =? y) (filter (fun r => r_month r =? 12) df))).
  { clear Hnd. induction df as [|r t IH]; [reflexivity|]. simpl.
    destruct (r_year r =? y) eqn:E1, (r_month r =? 12) eqn:E2; simpl;
      rewrite ?E1, ?E2; simpl; congruence. }
  rewrite Hl. apply Nat.leb_gt. pose proof (filter_NoDup_count r_year _ y Hnd). lia.
Qed.

Lemma dup12_assoc (s : series) :
  dup12 s = true -> exists v, assoc 12 s = Some v.
Proof.
  unfold dup12. destruct (filter (fun p => fst p =? 12) s) as [|[k v] t] eqn:E;
    [discriminate|intros _].
  assert (Hin : In (k, v) (filter (fun p => fst p =? 12) s)) by (rewrite E; now left).
  apply filter_In in Hin as [Hin Hk]. apply Z.eqb_eq in Hk. simpl in Hk. subst k.
  exact (In_assoc _ _ _ Hin).
Qed.

Lemma prepare_ytd_series_nonempty (df : list ytd_row) (current_year : Z) ytd hy lm :
  prepare_ytd_series df current_year = Ok (ytd, hy, lm) -> ytd <> [].
Proof.
  intros Hp. pose proof (prepare_ytd_series_dict _ _ _ _ _ Hp) as Hd.
  destruct df as [|r t]; [discriminate|].
  assert (Hin : In (r_year r) (sorted_unique (map r_year (r :: t))))
    by (apply sorted_unique_In; now left).
  rewrite Hd. destruct (sorted_unique _); [contradiction|discriminate].
Qed.

(** [get_summary_statistics] returns a summary on a non-empty dict whose
    series do not repeat the label 12. *)
Lemma get_summary_statistics_ok (sqrtQ : Q -> Q) (ytd : ytd_dict) (hy lm : Z) :
  ytd <> [] -> existsb (fun p => dup12 (snd p)) ytd = false ->
  exists st, get_summary_statistics sqrtQ ytd hy lm = Ok st.
Proof.
  intros Hne Hd. destruct ytd as [|p t]; [contradiction|].
  unfold get_summary_statistics. cbn [map py_min].
  destruct (calculate_historical_average_ok sqrtQ (p :: t)
              (if lm <? 12 then Some hy else None) Hd) as [[[a sd] n] Hr].
  rewrite Hr, Hd. eauto.
Qed.

(** ** C9 *)

(** C9: over the dict built by [prepare_ytd_series] (years in increasing
    order). When no year has a December value, [get_summary_statistics]
    raises nothing and [best_year], [worst_year] and their returns are all
    null. Whenever it returns a summary, and in particular whenever no two
    December rows share a year: [best_year] and [worst_year] are set when
    some year has a December value; they are a year with the largest and
    with the smallest December value, the smallest such year on a tie, with
    that value as their return. *)
Theorem summary_best_worst (sqrtQ : Q -> Q) (df : list ytd_row) (current_year : Z)
    (ytd_by_year : ytd_dict) (highlight_year last_month_highlight : Z) :
  prepare_ytd_series df current_year = Ok (ytd_by_year, highlight_year, last_month_highlight) ->
  ((forall y, december_value ytd_by_year y = None) ->
     exists st, get_summary_statistics sqrtQ ytd_by_year highlight_year last_month_highlight = Ok st /\
       best_year st = None /\ best_return st = None /\
       worst_year st = None /\ worst_return st = None) /\
  (NoDup (map r_year (filter (fun r => r_month r =? 12) df)) ->
     exists st, get_summary_statistics sqrtQ ytd_by_year highlight_year last_month_highlight = Ok st) /\
  (forall st,
   get_summary_statistics sqrtQ ytd_by_year highlight_year last_month_highlight = Ok st ->
   ((exists y v, december_value ytd_by_year y = Some v) ->
      exists b w, best_year st = Some b /\ worst_year st = Some w) /\
   (forall b, best_year st = Some b ->
      exists rb, best_return st = Some rb /\ december_value ytd_by_year b = Some rb /\
        (forall y v, december_value ytd_by_year y = Some v -> (v <= rb)%Q) /\
        (forall y v, december_value ytd_by_year y = Some v -> (v == rb)%Q -> b <= y)) /\
   (forall w, worst_year st = Some w ->
      exists rw, worst_return st = Some rw /\ december_value ytd_by_year w = Some rw /\
        (forall y v, december_value ytd_by_year y = Some v -> (rw <= v)%Q) /\
        (forall y v, december_value ytd_by_year y = Some v -> (v == rw)%Q -> w <= y))).
Proof.
  intros Hp.
  assert (Hsort : StronglySorted key_lt ytd_by_year).
  { rewrite (prepare_ytd_series_dict _ _ _ _ _ Hp).
    apply StronglySorted_map_keys, sorted_unique_sorted. }
  pose proof (year_end_returns_sorted _ Hsort) as Hys.
  pose proof (fun y v => december_value_spec ytd_by_year y v Hsort) as Hdec.
  pose proof (prepare_ytd_series_nonempty _ _ _ _ _ Hp) as Hne.
  assert (Hdict : forall y s, In (y, s) ytd_by_year ->
                    s = year_series df y /\ december_value ytd_by_year y = assoc 12 s).
  { intros y s Hin. pose proof Hin as Hin'.
    rewrite (prepare_ytd_series_dict _ _ _ _ _ Hp) in Hin'.
    apply in_map_iff in Hin' as [y' [Hy' Hy'in]]. injection Hy' as <- <-.
    split; [reflexivity|]. unfold december_value.
    rewrite (prepare_ytd_series_dict _ _ _ _ _ Hp), assoc_map_keys; [reflexivity|exact Hy'in]. }
  split; [|split].
  - intros Hnone.
    assert (Hd : existsb (fun p => dup12 (snd p)) ytd_by_year = false).
    { apply not_true_iff_false. intros Hex. apply existsb_exists in Hex as [[y s] [Hin Hd]].
      destruct (dup12_assoc s Hd) as [v Hv]. destruct (Hdict y s Hin) as [_ Hdv].
      rewrite Hnone, Hv in Hdv. discriminate. }
    destruct (get_summary_statistics_ok sqrtQ ytd_by_year highlight_year last_month_highlight
                Hne Hd) as [st Hs].
    exists st. split; [exact Hs|].
    apply get_summary_statistics_fields in Hs as [_ [Hb [Hbr [Hw Hwr]]]].
    destruct (year_end_returns ytd_by_year) as [|[y v] t] eqn:E.
    + simpl in *. tauto.
    + exfalso. assert (Hin : In (y, v) ((y, v) :: t)) by now left.
      apply Hdec in Hin. congruence.
  - intros Hnd. apply get_summary_statistics_ok; [exact Hne|].
    apply not_true_iff_false. intros Hex. apply existsb_exists in Hex as [[y s] [Hin Hd]].
    destruct (Hdict y s Hin) as [-> _]. simpl in Hd.
    rewrite (year_series_no_dup12 df y Hnd) in Hd. discriminate.
  - intros st Hs.
    apply get_summary_statistics_fields in Hs as [_ [Hb [Hbr [Hw Hwr]]]].
    destruct (year_end_returns ytd_by_year) as [|k t] eqn:E.
    + simpl in *. split.
      * intros [y [v Hv]]. apply Hdec in Hv. contradiction.
      * split; intros b Hb'; congruence.
    + pose proof (keep_best_first Qle_bool Qle_bool_total Qle_bool_trans
                    (k :: t) Hys ltac:(discriminate)) as Hmax.
      pose proof (keep_best_first (fun a b => Qle_bool b a)
                    (fun a b H => Qle_bool_total b a H)
                    (fun a b c H1 H2 => Qle_bool_trans c b a H2 H1)
                    (k :: t) Hys ltac:(discriminate)) as Hmin.
      simpl in Hmax, Hmin. unfold keep_best in Hmax, Hmin. simpl in Hb, Hbr, Hw, Hwr.
      split; [|split].
      * intros _. eauto.
      * intros b Hb'. rewrite Hb' in Hb. injection Hb as Hb.
        clear Hmin Hw Hwr. destruct Hmax as [Hin [Hle Htie]].
        set (acc := fold_left _ t k) in *.
        exists (snd acc). split; [exact Hbr|]. split; [|split].
        -- apply Hdec. rewrite Hb. now destruct acc.
        -- intros y v Hv. apply Hdec in Hv.
           apply Qle_bool_iff. exact (Hle (y, v) Hv).
        -- intros y v Hv Heq. apply Hdec in Hv. rewrite Hb.
           apply (Htie (y, v) Hv). apply Qle_bool_iff. simpl. rewrite Heq. apply Qle_refl.
      * intros w Hw'. rewrite Hw' in Hw. injection Hw as Hw.
        clear Hmax Hb Hbr. destruct Hmin as [Hin [Hle Htie]].
        set (acc := fold_left _ t k) in *.
        exists (snd acc). split; [exact Hwr|]. split; [|split].
        -- apply Hdec. rewrite Hw. now destruct acc.
        -- intros y v Hv. apply Hdec in Hv.
           apply Qle_bool_iff. exact (Hle (y, v) Hv).
        -- intros y v Hv Heq. apply Hdec in Hv. rewrite Hw.
           apply (Htie (y, v) Hv). apply Qle_bool_iff. simpl. rewrite Heq. apply Qle_refl.
Qed.

(** In [c9_rows], 2023 and 2024 tie at 0.2 in December: both best and worst
    are 2023. A frame with no December row gives a summary with no best or
    worst year. *)
Lemma summary_best_worst_witness :
  prepare_ytd_series c9_rows 2026 = Ok (c9_dict, 2025, 2) /\
  get_summary_statistics (fun x => x) c9_dict 2025 2 = Ok c9_summary /\
  best_year c9_summary = Some 2023 /\ worst_year c9_summary = Some 2023 /\
  (exists rb, best_return c9_summary = Some rb /\ december_value c9_dict 2023 = Some rb) /\
  (exists st, get_summary_statistics (fun x => x) c9_dict 2025 2 = Ok st) /\
  (exists st, get_summary_statistics (fun x => x) [(2025, [(1, -1 # 10)])] 2025 1 = Ok st /\
     best_year st = None /\ best_return st = None /\
     worst_year st = None /\ worst_return st = None).
Proof.
  assert (H1 : prepare_ytd_series c9_rows 2026 = Ok (c9_dict, 2025, 2)) by reflexivity.
  assert (H2 : get_summary_statistics (fun x => x) c9_dict 2025 2 = Ok c9_summary)
    by reflexivity.
  pose proof (summary_best_worst (fun x => x) c9_rows 2026 c9_dict 2025 2 H1) as Hc.
  split; [exact H1|]. split; [exact H2|]. split; [reflexivity|]. split; [reflexivity|].
  split; [|split].
  - destruct (proj1 (proj2 (proj2 (proj2 Hc) c9_summary H2)) 2023 eq_refl)
      as [rb [Hr [Hd _]]].
    exists rb. split; [exact Hr|exact Hd].
  - apply (proj1 (proj2 Hc)). apply has_dup_false_NoDup. reflexivity.
  - apply (proj1 (summary_best_worst (fun x => x) [mkRow 2025 1 90 (-1 # 10)] 2025
                    [(2025, [(1, -1 # 10)])] 2025 1 eq_refl)).
    intros y. unfold december_value. simpl. destruct (y =? 2025); reflexivity.
Defined.

Lemma prepare_ytd_series_values (df : list ytd_row) (current_year : Z) ytd hy lm :
  prepare_ytd_series df current_year = Ok (ytd, hy, lm) ->
  forall y s, In (y, s) ytd -> s = year_series df y.
Proof.
  intros Hp y s Hin. rewrite (prepare_ytd_series_dict _ _ _ _ _ Hp) in Hin.
  apply in_map_iff in Hin as [y' [Hy' _]]. now injection Hy' as <- <-.
Qed.

Lemma uint_to_string_inj (d1 d2 : Decimal.uint) :
  uint_to_string d1 = uint_to_string d2 -> d1 = d2.
Proof.
  revert d2. induction d1; intros d2; destruct d2; simpl; intros H;
    try discriminate; try reflexivity; injection H as H; f_equal; auto.
Qed.

Lemma py_str_int_inj (a b : Z) : py_str_int a = py_str_int b -> a = b.
Proof.
  intros H. apply DecimalZ.to_int_inj. unfold py_str_int in H.
  destruct (Z.to_int a) as [d1|d1], (Z.to_int b) as [d2|d2].
  - now rewrite (uint_to_string_inj d1 d2 H).
  - destruct d1; discriminate.
  - destruct d2; discriminate.
  - injection H as H. now rewrite (uint_to_string_inj d1 d2 H).
Qed.

(** * Further properties of the code *)

(** ** Lemmas on lists and lookups *)

Lemma filter_filter_comm {A : Type} (p q : A -> bool) (l : list A) :
  filter p (filter q l) = filter (fun x => q x && p x) l.
Proof.
  induction l as [|x t IH]; simpl; [reflexivity|].
  destruct (q x); simpl; [destruct (p x); simpl; now rewrite IH|exact IH].
Qed.

Lemma assoc_filter_key {V : Type} (lo k : Z) (l : list (Z * V)) :
  assoc k (filter (fun p => lo <=? fst p) l) = if lo <=? k then assoc k l else None.
Proof.
  induction l as [|[k' v] t IH]; simpl; [now destruct (lo <=? k)|].
  destruct (Z.leb_spec lo k'); simpl; destruct (Z.eqb_spec k k');
    rewrite ?IH; destruct (Z.leb_spec lo k); try reflexivity; lia.
Qed.

Lemma fold_max_spec (t : list Z) (acc : Z) :
  (fold_left Z.max t acc = acc \/ In (fold_left Z.max t acc) t) /\
  acc <= fold_left Z.max t acc /\ (forall y, In y t -> y <= fold_left Z.max t acc).
Proof.
  revert acc. induction t as [|x t IH]; intros acc; simpl.
  - split; [now left|split; [lia|contradiction]].
  - destruct (IH (Z.max acc x)) as [[Heq|Hin] [Hle Hall]].
    + split; [|split].
      * rewrite Heq. destruct (Z.max_spec acc x) as [[_ ->]|[_ ->]]; [right; now left|now left].
      * lia.
      * intros y [<-|Hy]; [lia|now apply Hall].
    + split; [right; now right|split; [lia|]]. intros y [<-|Hy]; [lia|now apply Hall].
Qed.

Lemma fold_min_spec (t : list Z) (acc : Z) :
  (fold_left Z.min t acc = acc \/ In (fold_left Z.min t acc) t) /\
  fold_left Z.min t acc <= acc /\ (forall y, In y t -> fold_left Z.min t acc <= y).
Proof.
  revert acc. induction t as [|x t IH]; intros acc; simpl.
  - split; [now left|split; [lia|contradiction]].
  - destruct (IH (Z.min acc x)) as [[Heq|Hin] [Hle Hall]].
    + split; [|split].
      * rewrite Heq. destruct (Z.min_spec acc x) as [[_ ->]|[_ ->]]; [now left|right; now left].
      * lia.
      * intros y [<-|Hy]; [lia|now apply Hall].
    + split; [right; now right|split; [lia|]]. intros y [<-|Hy]; [lia|now apply Hall].
Qed.

Lemma py_max_spec (l : list Z) (m : Z) :
  py_max l = Ok m -> In m l /\ forall x, In x l -> x <= m.
Proof.
  destruct l as [|x t]; simpl; [discriminate|]. intros [= <-].
  destruct (fold_max_spec t x) as [[Heq|Hin] [Hle Hall]].
  - split; [left; now symmetry|]. intros y [<-|Hy]; [lia|now apply Hall].
  - split; [now right|]. intros y [<-|Hy]; [lia|now apply Hall].
Qed.

Lemma py_min_spec (l : list Z) (m : Z) :
  py_min l = Ok m -> In m l /\ forall x, In x l -> m <= x.
Proof.
  destruct l as [|x t]; simpl; [discriminate|]. intros [= <-].
  destruct (fold_min_spec t x) as [[Heq|Hin] [Hle Hall]].
  - split; [left; now symmetry|]. intros y [<-|Hy]; [lia|now apply Hall].
  - split; [now right|]. intros y [<-|Hy]; [lia|now apply Hall].
Qed.

(** ** Lemmas on the YTD calculator *)

Lemma dec_keys_NoDup_iff (l : list bar) :
  NoDup (map fst (dec_baseline l)) <->
  NoDup (map b_year (filter (fun b => Z.eqb (b_month b) 12) l)).
Proof.
  unfold dec_baseline. rewrite map_map. simpl.
  split; apply NoDup_map_coarser; intros x y _ _ H; lia.
Qed.

Lemma calculate_ytd_returns_ok_NoDup (ty tm s e : Z) (df : list bar) :
  NoDup (map bar_key df) -> exists rows, calculate_ytd_returns ty tm df s e = Ok rows.
Proof.
  intros H. unfold calculate_ytd_returns.
  rewrite (proj2 (has_dup_false_NoDup _)); [eauto|].
  now apply dec_baseline_NoDup, processed_NoDup.
Qed.

(** A processed bar whose previous December is among the processed bars
    gets its row. *)
Lemma calculate_ytd_returns_row_present (ty tm s e : Z) (df : list bar) rows (b : bar) (c0 : Q) :
  calculate_ytd_returns ty tm df s e = Ok rows ->
  In b (processed_bars ty tm s e df) ->
  In (mkBar (b_year b - 1) 12 c0) (processed_bars ty tm s e df) ->
  In (mkRow (b_year b) (b_month b) (b_close b) (b_close b / c0 - 1)%Q) rows.
Proof.
  unfold calculate_ytd_returns.
  set (P := processed_bars ty tm s e df). set (D := dec_baseline P).
  destruct (has_dup (map fst D)) eqn:Hd; [discriminate|].
  intros [= <-] Hb Hdec. apply has_dup_false_NoDup in Hd.
  assert (HinD : In (b_year b, c0) D).
  { apply In_dec_baseline. exists (mkBar (b_year b - 1) 12 c0). simpl.
    split; [exact Hdec|]. split; [reflexivity|]. split; [lia|reflexivity]. }
  destruct (In_assoc _ _ _ HinD) as [c' Ha].
  assert (c' = c0) as ->
    by exact (NoDup_keys_functional D (b_year b) c' c0 Hd (assoc_In _ _ _ Ha) HinD).
  apply In_ytd_rows. exists b. split; [exact Hb|]. unfold ytd_of. now rewrite Ha.
Qed.

Lemma processed_bars_restrict (ty tm s' s e : Z) (df : list bar) :
  s' <= s ->
  processed_bars ty tm s e df =
  filter (fun b => s <=? b_year b) (processed_bars ty tm s' e df).
Proof.
  intros Hle. unfold processed_bars.
  destruct (Z.eqb e ty); rewrite !filter_filter_comm; apply filter_ext; intros b;
    unfold in_range;
    destruct (Z.leb_spec s (b_year b)), (Z.leb_spec s' (b_year b)), (Z.leb_spec (b_year b) e);
    simpl; rewrite ?andb_true_r, ?andb_false_r; try reflexivity; lia.
Qed.

Lemma dec_baseline_restrict (s : Z) (l : list bar) :
  dec_baseline (filter (fun b => s <=? b_year b) l) =
  filter (fun p => s + 1 <=? fst p) (dec_baseline l).
Proof.
  unfold dec_baseline. induction l as [|b t IH]; simpl; [reflexivity|].
  assert (E : (s + 1 <=? b_year b + 1) = (s <=? b_year b))
    by (destruct (Z.leb_spec s (b_year b)), (Z.leb_spec (s + 1) (b_year b + 1));
        try reflexivity; lia).
  destruct (s <=? b_year b) eqn:Hs; simpl;
    destruct (Z.eqb (b_month b) 12); simpl; rewrite ?E, ?IH; reflexivity.
Qed.

Lemma assoc_filter_upper {V : Type} (hi k : Z) (l : list (Z * V)) :
  assoc k (filter (fun p => fst p <=? hi) l) = if k <=? hi then assoc k l else None.
Proof.
  induction l as [|[k' v] t IH]; simpl; [now destruct (k <=? hi)|].
  destruct (Z.leb_spec k' hi); simpl; destruct (Z.eqb_spec k k');
    rewrite ?IH; destruct (Z.leb_spec k hi); try reflexivity; lia.
Qed.

Lemma processed_bars_restrict_end (ty tm s e' e : Z) (df : list bar) :
  e' <= e -> e' <> ty ->
  processed_bars ty tm s e' df =
  filter (fun b => b_year b <=? e') (processed_bars ty tm s e df).
Proof.
  intros Hle Hty. unfold processed_bars.
  replace (e' =? ty) with false by (symmetry; now apply Z.eqb_neq).
  destruct (Z.eqb_spec e ty) as [<-|]; rewrite ?filter_filter_comm; apply filter_ext;
    intros b; unfold in_range;
    destruct (Z.leb_spec s (b_year b)), (Z.leb_spec (b_year b) e'), (Z.leb_spec (b_year b) e);
    simpl; rewrite ?andb_true_r, ?andb_false_r; try reflexivity; try lia.
Qed.

Lemma dec_baseline_restrict_end (e : Z) (l : list bar) :
  dec_baseline (filter (fun b => b_year b <=? e) l) =
  filter (fun p => fst p <=? e + 1) (dec_baseline l).
Proof.
  unfold dec_baseline. induction l as [|b t IH]; simpl; [reflexivity|].
  assert (E : (b_year b + 1 <=? e + 1) = (b_year b <=? e))
    by (destruct (Z.leb_spec (b_year b) e), (Z.leb_spec (b_year b + 1) (e + 1));
        try reflexivity; lia).
  destruct (b_year b <=? e) eqn:Hs; simpl;
    destruct (Z.eqb (b_month b) 12); simpl; rewrite ?E, ?IH; reflexivity.
Qed.

(** ** Lemmas on the series extraction and the summary *)

Lemma get_ytd_for_comparison_member (df : list ytd_row) (year last_month : Z) (o : ytd_row) :
  In o df -> r_year o = year -> r_month o <= last_month ->
  exists s, get_ytd_for_comparison df year last_month = Some s /\ In (r_month o, r_ytd o) s.
Proof.
  intros Ho Hy Hm. unfold get_ytd_for_comparison.
  assert (Hin : In o (filter (fun r => Z.eqb (r_year r) year) df))
    by (apply filter_In; split; [exact Ho|now apply Z.eqb_eq]).
  assert (Hin' : In (r_month o, r_ytd o)
            (filter (fun p => fst p <=? last_month)
               (map (fun r => (r_month r, r_ytd r)) (filter (fun r => Z.eqb (r_year r) year) df))))
    by (apply filter_In; split; [now apply (in_map (fun r => (r_month r, r_ytd r)))|
                                 now apply Z.leb_le]).
  destruct (filter (fun r => Z.eqb (r_year r) year) df) as [|r0 t]; [contradiction|].
  destruct (filter (fun p => fst p <=? last_month) _) as [|p t'] eqn:E; [contradiction|].
  eauto.
Qed.

(** What [prepare_ytd_series] returns on a non-empty table. *)
Lemma prepare_ytd_series_highlight_facts (df : list ytd_row) (current_year : Z) ytd hy lm :
  prepare_ytd_series df current_year = Ok (ytd, hy, lm) ->
  (exists r, In r df /\ r_year r = hy /\ r_month r = lm) /\
  (forall r, In r df -> r_year r = hy -> r_month r <= lm) /\
  ((exists r, In r df /\ r_year r = current_year) -> hy = current_year) /\
  ((forall r, In r df -> r_year r <> current_year) -> forall r, In r df -> r_year r <= hy).
Proof.
  unfold prepare_ytd_series.
  assert (Hrows : forall y m, In m (map r_month (filter (fun r => Z.eqb (r_year r) y) df)) <->
                    exists r, In r df /\ r_year r = y /\ r_month r = m).
  { intros y m. rewrite in_map_iff. split.
    - intros [r [<- Hr]]. apply filter_In in Hr as [Hr Hy]. apply Z.eqb_eq in Hy. eauto.
    - intros [r [Hr [Hy <-]]]. exists r. split; [reflexivity|].
      apply filter_In. split; [exact Hr|now apply Z.eqb_eq]. }
  destruct (filter (fun r => Z.eqb (r_year r) current_year) df) as [|r0 t] eqn:Hcy.
  - assert (Hno : forall r, In r df -> r_year r <> current_year).
    { intros r Hr Hy. assert (In r (filter (fun r => Z.eqb (r_year r) current_year) df))
        by (apply filter_In; split; [exact Hr|now apply Z.eqb_eq]).
      rewrite Hcy in H. contradiction. }
    destruct (py_max (sorted_unique _)) as [y|] eqn:Hy; [|discriminate].
    destruct (py_max (map r_month _)) as [m|] eqn:Hm; [|discriminate].
    intros [= <- <- <-].
    apply py_max_spec in Hm as [Hm Hmax]. apply py_max_spec in Hy as [_ Hymax].
    split; [|split; [|split]].
    + now apply Hrows.
    + intros r Hr Hry. apply Hmax, Hrows. eauto.
    + intros [r [Hr Hry]]. exfalso. exact (Hno r Hr Hry).
    + intros _ r Hr. apply Hymax, sorted_unique_In. now apply in_map.
  - rewrite <- Hcy.
    destruct (py_max (map r_month _)) as [m|] eqn:Hm; [|discriminate].
    intros [= <- <- <-].
    apply py_max_spec in Hm as [Hm Hmax].
    split; [|split; [|split]].
    + now apply Hrows.
    + intros r Hr Hry. apply Hmax, Hrows. eauto.
    + reflexivity.
    + intros Hno. exfalso.
      assert (Hr0 : In r0 (filter (fun r => Z.eqb (r_year r) current_year) df))
        by (rewrite Hcy; now left).
      apply filter_In in Hr0 as [Hr0 Hy0]. apply Z.eqb_eq in Hy0. exact (Hno r0 Hr0 Hy0).
Qed.

(** * Further properties of the code *)

(** ** Ranges of the YTD calculator *)

(** Ending the range earlier, at a year other than the current one, never
    makes the calculator raise, and gives the rows of the longer range up to
    the new end year, in the same order: loading later years does not change
    the rows of the earlier ones. *)
Theorem calculate_ytd_returns_restrict_end (ty tm s e' e : Z) (df : list bar)
    (rows : list ytd_row) :
  calculate_ytd_returns ty tm df s e = Ok rows -> e' <= e -> e' <> ty ->
  calculate_ytd_returns ty tm df s e' = Ok (filter (fun o => r_year o <=? e') rows).
Proof.
  intros Hc Hle Hty. unfold calculate_ytd_returns in *.
  rewrite (processed_bars_restrict_end ty tm s e' e df Hle Hty).
  set (P := processed_bars ty tm s e df) in *. rewrite dec_baseline_restrict_end.
  set (D := dec_baseline P) in *.
  destruct (has_dup (map fst D)) eqn:Hd; [discriminate|].
  injection Hc as <-.
  rewrite (proj2 (has_dup_false_NoDup _))
    by (apply NoDup_map_filter; now apply has_dup_false_NoDup).
  f_equal. clearbody D. clear Hd. induction P as [|b t IH]; [reflexivity|].
  cbn [filter flat_map]. rewrite filter_app, <- IH.
  destruct (Z.leb_spec (b_year b) e'); cbn [flat_map]; unfold ytd_of;
    rewrite ?assoc_filter_upper;
    destruct (Z.leb_spec (b_year b) (e' + 1)); try lia; destruct (assoc (b_year b) D); simpl;
    try (destruct (Z.leb_spec (b_year b) e'); try lia); reflexivity.
Qed.

(** 2024 is in the past in March 2026: the range 2023-2024 gives the rows
    of 2023-2026 up to 2024. *)
Lemma calculate_ytd_returns_restrict_end_witness :
  calculate_ytd_returns 2026 3
    [mkBar 2023 12 100; mkBar 2024 6 90; mkBar 2024 12 120; mkBar 2025 1 132] 2023 2026
  = Ok [mkRow 2024 6 90 (90 / 100 - 1); mkRow 2024 12 120 (120 / 100 - 1);
        mkRow 2025 1 132 (132 / 120 - 1)] /\
  calculate_ytd_returns 2026 3
    [mkBar 2023 12 100; mkBar 2024 6 90; mkBar 2024 12 120; mkBar 2025 1 132] 2023 2024
  = Ok [mkRow 2024 6 90 (90 / 100 - 1); mkRow 2024 12 120 (120 / 100 - 1)].
Proof.
  assert (H : calculate_ytd_returns 2026 3
    [mkBar 2023 12 100; mkBar 2024 6 90; mkBar 2024 12 120; mkBar 2025 1 132] 2023 2026
    = Ok [mkRow 2024 6 90 (90 / 100 - 1); mkRow 2024 12 120 (120 / 100 - 1);
          mkRow 2025 1 132 (132 / 120 - 1)]) by reflexivity.
  split; [exact H|].
  exact (calculate_ytd_returns_restrict_end 2026 3 2023 2024 2026 _ _ H
           ltac:(lia) ltac:(lia)).
Defined.

(** When no two input bars share a (year, month), [calculate_ytd_returns]
    does not raise, whatever the range and the date. *)
Theorem calculate_ytd_returns_unique_bars_ok (ty tm s e : Z) (df : list bar) :
  NoDup (map bar_key df) -> exists rows, calculate_ytd_returns ty tm df s e = Ok rows.
Proof. apply calculate_ytd_returns_ok_NoDup. Qed.

Lemma calculate_ytd_returns_unique_bars_ok_witness :
  NoDup (map bar_key [mkBar 2024 12 100; mkBar 2025 12 110; mkBar 2025 1 90]) /\
  exists rows, calculate_ytd_returns 2026 3
                 [mkBar 2024 12 100; mkBar 2025 12 110; mkBar 2025 1 90] 2024 2026 = Ok rows.
Proof.
  assert (H : NoDup (map bar_key [mkBar 2024 12 100; mkBar 2025 12 110; mkBar 2025 1 90]))
    by (simpl; repeat constructor; simpl; intuition discriminate).
  split; [exact H|].
  exact (calculate_ytd_returns_unique_bars_ok 2026 3 2024 2026 _ H).
Defined.

(** ** Rows of the YTD calculator *)

(** Every emitted row lies strictly after [start_year] and at most at
    [end_year], and when [end_year] is the current year no row is for the
    current month or a later one. *)
Theorem calculate_ytd_returns_row_window (ty tm s e : Z) (df : list bar) (rows : list ytd_row) :
  calculate_ytd_returns ty tm df s e = Ok rows ->
  forall o, In o rows ->
  s < r_year o <= e /\ ~ (e = ty /\ r_year o = ty /\ tm <= r_month o).
Proof.
  intros Hc o Ho.
  destruct (calculate_ytd_returns_row_origin ty tm s e df rows o Hc Ho)
    as [_ [b [c [Hb [Ha ->]]]]]; simpl.
  apply assoc_In, In_dec_baseline in Ha as [bd [Hbd [_ [Hy _]]]].
  apply In_processed in Hbd as [_ [Hr _]].
  apply In_processed in Hb as [_ [Hr' Hnot]].
  split; [lia|]. intros [-> [Hy' Hm]]. apply Hnot. split; [reflexivity|]. split; [lia|exact Hm].
Qed.

Lemma calculate_ytd_returns_row_window_witness :
  calculate_ytd_returns 2026 3
    [mkBar 2025 12 100; mkBar 2026 1 110; mkBar 2026 2 105; mkBar 2026 3 120] 2025 2026
  = Ok [mkRow 2026 1 110 (110 / 100 - 1); mkRow 2026 2 105 (105 / 100 - 1)] /\
  2025 < r_year (mkRow 2026 2 105 (105 / 100 - 1)) <= 2026.
Proof.
  assert (H : calculate_ytd_returns 2026 3
    [mkBar 2025 12 100; mkBar 2026 1 110; mkBar 2026 2 105; mkBar 2026 3 120] 2025 2026
    = Ok [mkRow 2026 1 110 (110 / 100 - 1); mkRow 2026 2 105 (105 / 100 - 1)])
    by reflexivity.
  split; [exact H|].
  exact (proj1 (calculate_ytd_returns_row_window 2026 3 2025 2026 _ _ H
                  (mkRow 2026 2 105 (105 / 100 - 1)) (or_intror (or_introl eq_refl)))).
Defined.

(** Starting the range later never makes the calculator raise, and gives
    the rows of the longer range that lie after the new start year, in the
    same order: loading more history does not change the rows of the later
    years. *)
Theorem calculate_ytd_returns_restrict_start (ty tm s' s e : Z) (df : list bar)
    (rows' : list ytd_row) :
  calculate_ytd_returns ty tm df s' e = Ok rows' -> s' <= s ->
  calculate_ytd_returns ty tm df s e = Ok (filter (fun o => s <? r_year o) rows').
Proof.
  intros Hc Hle. unfold calculate_ytd_returns in *.
  rewrite (processed_bars_restrict ty tm s' s e df Hle).
  set (P := processed_bars ty tm s' e df) in *. rewrite dec_baseline_restrict.
  set (D := dec_baseline P) in *.
  destruct (has_dup (map fst D)) eqn:Hd; [discriminate|].
  injection Hc as <-.
  rewrite (proj2 (has_dup_false_NoDup _))
    by (apply NoDup_map_filter; now apply has_dup_false_NoDup).
  f_equal. clearbody D. clear Hd. induction P as [|b t IH]; [reflexivity|].
  cbn [filter flat_map]. rewrite filter_app, <- IH.
  destruct (Z.leb_spec s (b_year b)); cbn [flat_map]; unfold ytd_of; rewrite ?assoc_filter_key;
    destruct (Z.leb_spec (s + 1) (b_year b)); destruct (assoc (b_year b) D); simpl;
    try (destruct (Z.ltb_spec s (b_year b)); try lia); reflexivity.
Qed.

Lemma calculate_ytd_returns_restrict_start_witness :
  calculate_ytd_returns 2026 3
    [mkBar 2023 12 100; mkBar 2024 6 90; mkBar 2024 12 120; mkBar 2025 1 132] 2023 2026
  = Ok [mkRow 2024 6 90 (90 / 100 - 1); mkRow 2024 12 120 (120 / 100 - 1);
        mkRow 2025 1 132 (132 / 120 - 1)] /\
  calculate_ytd_returns 2026 3
    [mkBar 2023 12 100; mkBar 2024 6 90; mkBar 2024 12 120; mkBar 2025 1 132] 2024 2026
  = Ok [mkRow 2025 1 132 (132 / 120 - 1)].
Proof.
  assert (H : calculate_ytd_returns 2026 3
    [mkBar 2023 12 100; mkBar 2024 6 90; mkBar 2024 12 120; mkBar 2025 1 132] 2023 2026
    = Ok [mkRow 2024 6 90 (90 / 100 - 1); mkRow 2024 12 120 (120 / 100 - 1);
          mkRow 2025 1 132 (132 / 120 - 1)]) by reflexivity.
  split; [exact H|].
  exact (calculate_ytd_returns_restrict_start 2026 3 2023 2024 2026 _ _ H
           ltac:(lia)).
Defined.

(** ** [prepare_ytd_series] *)

(** [prepare_ytd_series] raises only on an empty table, with [ValueError]
    (from [max] of the empty year list). Otherwise the highlighted year is
    [current_year] when the table has rows for it and the latest year of the
    table when not, and [last_month_highlight] is the largest month among
    the highlighted year's rows. *)
Theorem prepare_ytd_series_highlight (df : list ytd_row) (current_year : Z) :
  (df = [] -> prepare_ytd_series df current_year = Raise ValueError) /\
  (df <> [] -> exists res, prepare_ytd_series df current_year = Ok res) /\
  (forall ytd hy lm, prepare_ytd_series df current_year = Ok (ytd, hy, lm) ->
     (exists r, In r df /\ r_year r = hy /\ r_month r = lm) /\
     (forall r, In r df -> r_year r = hy -> r_month r <= lm) /\
     ((exists r, In r df /\ r_year r = current_year) -> hy = current_year) /\
     ((forall r, In r df -> r_year r <> current_year) ->
        forall r, In r df -> r_year r <= hy)).
Proof.
  split; [intros ->; reflexivity|]. split; [|exact (prepare_ytd_series_highlight_facts df current_year)].
  intros Hne. unfold prepare_ytd_series.
  destruct (filter (fun r => Z.eqb (r_year r) current_year) df) as [|r0 t] eqn:Hcy;
    [|simpl; eauto].
  destruct df as [|r df']; [contradiction|].
  assert (Hy : In (r_year r) (sorted_unique (map r_year (r :: df'))))
    by (apply sorted_unique_In; now left).
  destruct (sorted_unique (map r_year (r :: df'))) as [|y ys] eqn:Hsu; [contradiction|].
  cbn [py_max].
  set (hy := fold_left Z.max ys y).
  assert (Hhy : In hy (y :: ys)) by (exact (proj1 (py_max_spec (y :: ys) hy eq_refl))).
  rewrite <- Hsu, sorted_unique_In in Hhy. apply in_map_iff in Hhy as [r1 [Hr1 Hin1]].
  assert (Hf : In r1 (filter (fun r => Z.eqb (r_year r) hy) (r :: df')))
    by (apply filter_In; split; [exact Hin1|now apply Z.eqb_eq]).
  destruct (filter (fun r => Z.eqb (r_year r) hy) (r :: df')) as [|r2 t2]; [contradiction|].
  simpl. eauto.
Qed.

(** The dict built by [prepare_ytd_series]: its years are strictly
    increasing and are exactly the years of the table, each maps to that
    year's (month, YTD) pairs in table order, which are never empty, and
    the highlighted year is one of its keys. *)
Theorem prepare_ytd_series_dict_shape (df : list ytd_row) (current_year : Z) ytd hy lm :
  prepare_ytd_series df current_year = Ok (ytd, hy, lm) ->
  StronglySorted key_lt ytd /\
  (forall y, In y (map fst ytd) <-> exists r, In r df /\ r_year r = y) /\
  (forall y s, In (y, s) ytd -> s = year_series df y /\ s <> []) /\
  In hy (map fst ytd).
Proof.
  intros Hp.
  destruct (prepare_ytd_series_highlight_facts _ _ _ _ _ Hp) as [[rh [Hrh [Hyh _]]] _].
  rewrite (prepare_ytd_series_dict _ _ _ _ _ Hp).
  assert (Hkeys : forall y, In y (map fst (map (fun y => (y, year_series df y))
                                             (sorted_unique (map r_year df)))) <->
                       exists r, In r df /\ r_year r = y).
  { intros y. rewrite map_map. simpl. rewrite map_id, sorted_unique_In, in_map_iff.
    split; intros [r [H1 H2]]; exists r; split; assumption. }
  split; [apply StronglySorted_map_keys, sorted_unique_sorted|]. split; [exact Hkeys|].
  split.
  - intros y s Hin. apply in_map_iff in Hin as [y' [Hy' Hin]]. injection Hy' as <- <-.
    split; [reflexivity|]. apply sorted_unique_In, in_map_iff in Hin as [r [Hr Hin]].
    unfold year_series.
    assert (Hf : In r (filter (fun r => Z.eqb (r_year r) y') df))
      by (apply filter_In; split; [exact Hin|now apply Z.eqb_eq]).
    destruct (filter _ df); [contradiction|discriminate].
  - apply Hkeys. eauto.
Qed.

Lemma prepare_ytd_series_dict_shape_witness :
  prepare_ytd_series c9_rows 2026 = Ok (c9_dict, 2025, 2) /\
  StronglySorted key_lt c9_dict.
Proof.
  assert (H : prepare_ytd_series c9_rows 2026 = Ok (c9_dict, 2025, 2)) by reflexivity.
  split; [exact H|].
  exact (proj1 (prepare_ytd_series_dict_shape c9_rows 2026 c9_dict 2025 2 H)).
Defined.

(** ** [get_summary_statistics] *)

(** [get_summary_statistics] raises [ValueError] on an empty dict (from
    [min] of its keys) and when a year's series has the label 12 more than
    once (the truth value of a Series); otherwise it returns a summary, and
    [actual_start_year] is the smallest year of the dict. *)
Theorem get_summary_statistics_start_year (sqrtQ : Q -> Q) (ytd : ytd_dict) (hy lm : Z) :
  (ytd = [] -> get_summary_statistics sqrtQ ytd hy lm = Raise ValueError) /\
  (existsb (fun p => dup12 (snd p)) ytd = true ->
   get_summary_statistics sqrtQ ytd hy lm = Raise ValueError) /\
  (ytd <> [] -> existsb (fun p => dup12 (snd p)) ytd = false ->
   exists st, get_summary_statistics sqrtQ ytd hy lm = Ok st) /\
  (forall st, get_summary_statistics sqrtQ ytd hy lm = Ok st ->
     In (actual_start_year st) (map fst ytd) /\
     forall y, In y (map fst ytd) -> actual_start_year st <= y).
Proof.
  split; [intros ->; reflexivity|]. split; [|split].
  - intros Hd. destruct ytd as [|p t]; [discriminate|].
    unfold get_summary_statistics. cbn [map py_min].
    destruct (calculate_historical_average _ _ _) as [[[a sd] n]|e] eqn:Ec.
    + now rewrite Hd.
    + now rewrite (calculate_historical_average_raise _ _ _ _ Ec).
  - intros Hne Hd. destruct ytd as [|p t]; [contradiction|].
    unfold get_summary_statistics. cbn [map py_min].
    destruct (calculate_historical_average_ok sqrtQ (p :: t)
                (if lm <? 12 then Some hy else None) Hd) as [[[a sd] n] Hr].
    rewrite Hr, Hd. eauto.
  - intros st. unfold get_summary_statistics.
    destruct (py_min (map fst ytd)) as [m|] eqn:Hm; [|discriminate].
    destruct (calculate_historical_average _ _ _) as [[[a sd] n]|e]; [|discriminate].
    destruct (existsb _ _); [discriminate|].
    intros [= <-]. simpl. exact (py_min_spec _ _ Hm).
Qed.

Lemma get_summary_statistics_start_year_witness :
  get_summary_statistics (fun x => x) [(2023, [(12, 1 # 10); (12, 2 # 10)])] 2024 3
    = Raise ValueError /\
  exists st, get_summary_statistics (fun x => x) c9_dict 2025 2 = Ok st.
Proof.
  split.
  - apply (proj1 (proj2 (get_summary_statistics_start_year (fun x => x)
                           [(2023, [(12, 1 # 10); (12, 2 # 10)])] 2024 3))).
    reflexivity.
  - apply (proj1 (proj2 (proj2 (get_summary_statistics_start_year (fun x => x)
                                  c9_dict 2025 2)))).
    + discriminate.
    + reflexivity.
Defined.

(** On the Historical YTD page ([prepare_ytd_series] then
    [get_summary_statistics]), [current_ytd] is the YTD value of the last
    row, in table order, of the highlighted year. *)
Theorem historical_current_ytd (sqrtQ : Q -> Q) (df : list ytd_row) (current_year : Z)
    ytd hy lm (st : summary) :
  prepare_ytd_series df current_year = Ok (ytd, hy, lm) ->
  get_summary_statistics sqrtQ ytd hy lm = Ok st ->
  exists r rest, rev (filter (fun r => Z.eqb (r_year r) hy) df) = r :: rest /\
                 current_ytd st = Some (r_ytd r).
Proof.
  intros Hp Hs.
  destruct (prepare_ytd_series_highlight_facts _ _ _ _ _ Hp) as [[rh [Hrh [Hyh _]]] _].
  rewrite (prepare_ytd_series_dict _ _ _ _ _ Hp) in Hs.
  unfold get_summary_statistics in Hs.
  destruct (py_min _); [|discriminate].
  destruct (calculate_historical_average _ _ _) as [[[a sd] n]|e]; [|discriminate].
  destruct (existsb _ _); [discriminate|].
  injection Hs as <-. simpl.
  rewrite assoc_map_keys by (apply sorted_unique_In, in_map_iff; eauto).
  unfold iloc_last, year_series. rewrite <- map_rev.
  assert (Hf : In rh (rev (filter (fun r => Z.eqb (r_year r) hy) df)))
    by (apply in_rev; rewrite rev_involutive; apply filter_In;
        split; [exact Hrh|now apply Z.eqb_eq]).
  destruct (rev (filter (fun r => Z.eqb (r_year r) hy) df)) as [|r rest]; [contradiction|].
  simpl. eauto.
Qed.

Lemma historical_current_ytd_witness :
  prepare_ytd_series c9_rows 2026 = Ok (c9_dict, 2025, 2) /\
  get_summary_statistics (fun x => x) c9_dict 2025 2 = Ok c9_summary /\
  exists r rest, rev (filter (fun r => Z.eqb (r_year r) 2025) c9_rows) = r :: rest /\
                 current_ytd c9_summary = Some (r_ytd r).
Proof.
  assert (H1 : prepare_ytd_series c9_rows 2026 = Ok (c9_dict, 2025, 2)) by reflexivity.
  assert (H2 : get_summary_statistics (fun x => x) c9_dict 2025 2 = Ok c9_summary)
    by reflexivity.
  split; [exact H1|]. split; [exact H2|].
  exact (historical_current_ytd (fun x => x) c9_rows 2026 c9_dict 2025 2 c9_summary H1 H2).
Defined.

(** On the Historical YTD page, excluding the highlighted year from the
    historical statistics when its last month is before December never
    changes them: that year then has no December value. The statistics are
    those of all years of the dict. *)
Theorem historical_exclusion_noop (sqrtQ : Q -> Q) (df : list ytd_row) (current_year : Z)
    ytd hy lm (st : summary) :
  prepare_ytd_series df current_year = Ok (ytd, hy, lm) ->
  get_summary_statistics sqrtQ ytd hy lm = Ok st ->
  calculate_historical_average sqrtQ ytd None =
    Ok (avg_full_year_ytd st, std_full_year_ytd st, n_years st).
Proof.
  intros Hp Hs.
  destruct (prepare_ytd_series_highlight_facts _ _ _ _ _ Hp) as [_ [Hmax _]].
  pose proof (prepare_ytd_series_values _ _ _ _ _ Hp) as Hvals.
  pose proof (get_summary_statistics_no_dup12 _ _ _ _ _ Hs) as Hd.
  apply get_summary_statistics_fields in Hs as [Hh _]. rewrite <- Hh.
  destruct (Z.ltb_spec lm 12) as [Hlt|]; [|reflexivity].
  unfold calculate_historical_average.
  rewrite (existsb_filter_false _ _ _ Hd), (existsb_filter_false _ _ _ Hd).
  assert (Hpool : forall l : ytd_dict, (forall s, In (hy, s) l -> assoc 12 s = None) ->
    flat_map (fun o : option Q => match o with Some r => [r] | None => [] end)
      (map (fun p : Z * series => assoc 12 (snd p)) (filter (fun _ : Z * series => true) l)) =
    flat_map (fun o : option Q => match o with Some r => [r] | None => [] end)
      (map (fun p : Z * series => assoc 12 (snd p))
         (filter (fun p : Z * series => negb (fst p =? hy)) l))).
  { induction l as [|[y s] t IH]; intros Hl; [reflexivity|]. simpl.
    rewrite IH by (intros s' Hs'; apply Hl; now right).
    destruct (Z.eqb_spec y hy) as [->|]; simpl; [rewrite (Hl s (or_introl eq_refl))|];
      reflexivity. }
  rewrite Hpool; [reflexivity|].
  intros s Hin. destruct (assoc 12 s) as [v|] eqn:Ha; [|reflexivity]. exfalso.
  rewrite (Hvals hy s Hin) in Ha. apply assoc_In in Ha. unfold year_series in Ha.
  apply in_map_iff in Ha as [r [Hr Hin']]. injection Hr as Hm _.
  apply filter_In in Hin' as [Hin' Hy]. apply Z.eqb_eq in Hy.
  specialize (Hmax r Hin' Hy). lia.
Qed.

Lemma historical_exclusion_noop_witness :
  prepare_ytd_series c9_rows 2026 = Ok (c9_dict, 2025, 2) /\
  get_summary_statistics (fun x => x) c9_dict 2025 2 = Ok c9_summary /\
  calculate_historical_average (fun x => x) c9_dict None =
    Ok (avg_full_year_ytd c9_summary, std_full_year_ytd c9_summary, n_years c9_summary).
Proof.
  assert (H1 : prepare_ytd_series c9_rows 2026 = Ok (c9_dict, 2025, 2)) by reflexivity.
  assert (H2 : get_summary_statistics (fun x => x) c9_dict 2025 2 = Ok c9_summary)
    by reflexivity.
  split; [exact H1|]. split; [exact H2|].
  exact (historical_exclusion_noop (fun x => x) c9_rows 2026 c9_dict 2025 2 c9_summary H1 H2).
Defined.

(** ** The comparison page's pipeline *)

(** On the comparison page, for a ticker whose bars have distinct
    (year, month) keys: loading does not raise, and a bar of the baseline
    year in a completed month, with a December bar of the year before,
    appears in the prior-period series with its YTD value against that
    December close. *)
Theorem page_prior_series_member (ty tm : Z) (data : list bar) (c0 c : Q) (m : Z) :
  NoDup (map bar_key data) ->
  In (mkBar (baseline_year (calendar_window ty tm) - 1) 12 c0) data ->
  In (mkBar (baseline_year (calendar_window ty tm)) m c) data ->
  m <= last_completed_month (calendar_window ty tm) ->
  exists cs s, page_ticker_series ty tm data = Ok (cs, Some s) /\ In (m, c / c0 - 1)%Q s.
Proof.
  intros Hnd Hdec Hb Hm.
  assert (Hw : calendar_window ty tm =
    if Z.eqb tm 1 then mkWindow ty (ty - 1) 12 true (ty - 1 - 1)
    else mkWindow ty ty (tm - 1) false (ty - 1))
    by (unfold calendar_window, determine_comparison_years; now destruct (Z.eqb tm 1)).
  unfold page_ticker_series. rewrite Hw in *.
  destruct (Z.eqb_spec tm 1); simpl in *;
  match goal with
  | |- context [calculate_ytd_returns ty tm data ?s ?e] =>
    destruct (calculate_ytd_returns_ok_NoDup ty tm s e data Hnd) as [rows Hc]
  end; rewrite Hc;
  match type of Hb with
  | In (mkBar ?y m c) data =>
    assert (Hrow : In (mkRow y m c (c / c0 - 1)%Q) rows)
      by (apply (calculate_ytd_returns_row_present _ _ _ _ _ _ (mkBar y m c) c0 Hc);
          apply In_processed; simpl; (split; [eassumption|]); lia);
    destruct (get_ytd_for_comparison_member rows y _ _ Hrow eq_refl Hm) as [s [Hs Hin]]
  end;
  rewrite Hs; eauto.
Qed.

Lemma page_prior_series_member_witness :
  exists (cs : option series) (s : series),
    page_ticker_series 2026 3 [mkBar 2024 12 100; mkBar 2025 1 110; mkBar 2025 12 120;
                               mkBar 2026 1 132] = Ok (cs, Some s) /\
    In (1, (110 / 100 - 1)%Q) s.
Proof.
  exact (page_prior_series_member 2026 3
           [mkBar 2024 12 100; mkBar 2025 1 110; mkBar 2025 12 120; mkBar 2026 1 132]
           100 110 1
           ltac:(simpl; repeat constructor; simpl; intuition discriminate)
           ltac:(vm_compute; auto 10) ltac:(vm_compute; auto 10)
           ltac:(vm_compute; discriminate)).
Defined.

(** On the comparison page, for a ticker whose bars have distinct
    (year, month) keys: a bar of the compared year in a completed month,
    with a December bar of the year before, appears in the current-period
    series with its YTD value against that December close; in particular the
    month in progress is never needed. *)
Theorem page_current_series_member (ty tm : Z) (data : list bar) (c1 c : Q) (m : Z) :
  NoDup (map bar_key data) ->
  In (mkBar (comparison_year (calendar_window ty tm) - 1) 12 c1) data ->
  In (mkBar (comparison_year (calendar_window ty tm)) m c) data ->
  m <= last_completed_month (calendar_window ty tm) ->
  exists ps s, page_ticker_series ty tm data = Ok (Some s, ps) /\ In (m, c / c1 - 1)%Q s.
Proof.
  intros Hnd Hdec Hb Hm.
  assert (Hw : calendar_window ty tm =
    if Z.eqb tm 1 then mkWindow ty (ty - 1) 12 true (ty - 1 - 1)
    else mkWindow ty ty (tm - 1) false (ty - 1))
    by (unfold calendar_window, determine_comparison_years; now destruct (Z.eqb tm 1)).
  unfold page_ticker_series. rewrite Hw in *.
  destruct (Z.eqb_spec tm 1); simpl in *;
  match goal with
  | |- context [calculate_ytd_returns ty tm data ?s ?e] =>
    destruct (calculate_ytd_returns_ok_NoDup ty tm s e data Hnd) as [rows Hc]
  end; rewrite Hc;
  match type of Hb with
  | In (mkBar ?y m c) data =>
    assert (Hrow : In (mkRow y m c (c / c1 - 1)%Q) rows)
      by (apply (calculate_ytd_returns_row_present _ _ _ _ _ _ (mkBar y m c) c1 Hc);
          apply In_processed; simpl; (split; [eassumption|]); lia);
    destruct (get_ytd_for_comparison_member rows y _ _ Hrow eq_refl Hm) as [s [Hs Hin]]
  end;
  rewrite Hs; eauto.
Qed.

Lemma page_current_series_member_witness :
  exists (ps : option series) (s : series),
    page_ticker_series 2026 1 [mkBar 2024 12 100; mkBar 2025 6 110; mkBar 2025 12 120;
                               mkBar 2026 1 132] = Ok (Some s, ps) /\
    In (12, (120 / 100 - 1)%Q) s.
Proof.
  exact (page_current_series_member 2026 1
           [mkBar 2024 12 100; mkBar 2025 6 110; mkBar 2025 12 120; mkBar 2026 1 132]
           100 120 12
           ltac:(simpl; repeat constructor; simpl; intuition discriminate)
           ltac:(vm_compute; auto 10) ltac:(vm_compute; auto 10)
           ltac:(vm_compute; discriminate)).
Defined.

(** ** Column headers of the comparison table *)

(** In January the page compares [today_year - 1] with [today_year - 2]
    (as its sidebar says), but the headers [format_comparison_table] gives
    name [today_year - 2] and [today_year - 3]: the current-period column is
    never labelled with the year it shows. *)
Theorem page_january_headers (today_year : Z) :
  page_sidebar_january_years today_year 1 = (today_year - 1, today_year - 2) /\
  page_table_headers today_year 1 =
    Some ("Full " ++ py_str_int (today_year - 2), "Full " ++ py_str_int (today_year - 3))%string /\
  forall cur prior, page_table_headers today_year 1 = Some (cur, prior) ->
    cur <> ("Full " ++ py_str_int (today_year - 1))%string.
Proof.
  assert (Hh : page_table_headers today_year 1 =
    Some ("Full " ++ py_str_int (today_year - 2), "Full " ++ py_str_int (today_year - 3))%string).
  { unfold page_table_headers, comparison_table_headers. simpl.
    replace (today_year - 1 - 1) with (today_year - 2) by ring.
    replace (today_year - 2 - 1) with (today_year - 3) by ring. reflexivity. }
  split; [unfold page_sidebar_january_years; simpl; f_equal; ring|]. split; [exact Hh|].
  intros cur prior H. rewrite Hh in H. injection H as <- _. intros H.
  injection H as H. apply py_str_int_inj in H. lia.
Qed.

(** In any month but January the headers are [YTD <year>] over
    [(through <month>)] for the current and the previous year, with the
    name of the last completed month: the month list is never indexed out
    of range. *)
Theorem page_headers_other_months (today_year today_month : Z) :
  2 <= today_month <= 12 ->
  exists month_str,
    nth_error month_names (Z.to_nat (today_month - 2)) = Some month_str /\
    page_table_headers today_year today_month =
      Some ("YTD " ++ py_str_int today_year ++ newline ++ "(through " ++ month_str ++ ")",
            "YTD " ++ py_str_int (today_year - 1) ++ newline ++
              "(through " ++ month_str ++ ")")%string.
Proof.
  intros Hm.
  assert (H : today_month = 2 \/ today_month = 3 \/ today_month = 4 \/ today_month = 5 \/
              today_month = 6 \/ today_month = 7 \/ today_month = 8 \/ today_month = 9 \/
              today_month = 10 \/ today_month = 11 \/ today_month = 12) by lia.
  repeat destruct H as [->|H]; try subst today_month; eexists; split; reflexivity.
Qed.

Lemma page_headers_other_months_witness :
  (2 <= 3 <= 12) /\
  exists month_str,
    nth_error month_names (Z.to_nat (3 - 2)) = Some month_str /\
    page_table_headers 2026 3 =
      Some ("YTD " ++ py_str_int 2026 ++ newline ++ "(through " ++ month_str ++ ")",
            "YTD " ++ py_str_int (2026 - 1) ++ newline ++
              "(through " ++ month_str ++ ")")%string.
Proof.
  split; [lia|]. exact (page_headers_other_months 2026 3 ltac:(lia)).
Defined.
